(** * export_menu: a shallow embedding of [src/export_menu.py]

    The exporter turns spreadsheet rows into a menu document, fingerprints
    it and writes it to disk when the fingerprint changed.  This file
    embeds the functions of [export_menu.py] and the parts of the Python
    runtime they rely on ([str], [str.strip], [str.lower], [float],
    [repr] of a float, [list.sort], [min], [json.dumps], SHA-256), and
    proves the properties of the exporter stated in its specification.

    Conventions of the embedding.
    - Text is a [string] holding the UTF-8 bytes of the Python [str].
      [strip], [lower] and [float] are embedded on the ASCII range, where
      they are what Python's [str.strip], [str.lower] and [float] are;
      outside it Python also strips the Unicode white space, lower-cases
      the other letters and reads the other decimal digits.
    - A Python [float] is a binary64 value of [SpecFloat.spec_float]; an
      [int] is a [Z], and [str] prints every one (CPython refuses to
      print an integer of more than 4300 digits).
    - Where a statement needs the cells to be in the range on which the
      embedding is what the code does, it says so by a hypothesis
      ([is_ascii], [plain_cell], [plain_row]).
    - A [dict] is an association list in insertion order.
    - The clock is an explicit [datetime] argument, the file system an
      explicit [world] threaded through a state-and-exception monad.
      Creating a directory and writing a file succeed in the embedding;
      a statement about a run that writes assumes a store where they do
      ([writable]). *)

From Stdlib Require Import ZArith QArith List String Ascii Bool Lia Lqa.
From Stdlib Require Import Permutation Sorted SpecFloat.
From stdpp Require Import gmap strings list fin_maps.

Local Open Scope string_scope.
Local Open Scope Z_scope.

#[local] Set Warnings "-register-all".

(** ** Text: [str.strip], [str.lower] *)

Definition code (c : ascii) : Z := Z.of_N (N_of_ascii c).

Definition chr (z : Z) : ascii := ascii_of_N (Z.to_N z).

(** [str.isspace] on the ASCII range: TAB..CR, FS..US and the space. *)
Definition is_space (c : ascii) : bool :=
  ((9 <=? code c) && (code c <=? 13)) || ((28 <=? code c) && (code c <=? 32)).

Definition is_digit (c : ascii) : bool :=
  (48 <=? code c) && (code c <=? 57).

Fixpoint lskip (p : ascii -> bool) (s : string) : string :=
  match s with
  | EmptyString => EmptyString
  | String c s' => if p c then lskip p s' else s
  end.

Fixpoint rskip (p : ascii -> bool) (s : string) : string :=
  match s with
  | EmptyString => EmptyString
  | String c s' =>
      match rskip p s' with
      | EmptyString => if p c then EmptyString else String c EmptyString
      | r => String c r
      end
  end.

Definition strip (s : string) : string := rskip is_space (lskip is_space s).

Definition lower_char (c : ascii) : ascii :=
  if (65 <=? code c) && (code c <=? 90) then chr (code c + 32) else c.

Fixpoint lower (s : string) : string :=
  match s with
  | EmptyString => EmptyString
  | String c s' => String (lower_char c) (lower s')
  end.

Fixpoint string_map_concat (f : ascii -> string) (s : string) : string :=
  match s with
  | EmptyString => EmptyString
  | String c s' => String.append (f c) (string_map_concat f s')
  end.

Fixpoint string_forallb (p : ascii -> bool) (s : string) : bool :=
  match s with
  | EmptyString => true
  | String c s' => p c && string_forallb p s'
  end.

Fixpoint string_rev_onto (s acc : string) : string :=
  match s with
  | EmptyString => acc
  | String c s' => string_rev_onto s' (String c acc)
  end.

Fixpoint repeat_char (c : ascii) (n : nat) : string :=
  match n with
  | O => EmptyString
  | S n' => String c (repeat_char c n')
  end.

Fixpoint join (sep : string) (l : list string) : string :=
  match l with
  | [] => EmptyString
  | [x] => x
  | x :: l' => String.append x (String.append sep (join sep l'))
  end.

(** ** Integers as decimal text: [str(int)] and zero-padded fields *)

Definition digit_char (d : Z) : ascii := chr (48 + d).

Fixpoint digits_onto (fuel : nat) (n : Z) (acc : string) : string :=
  match fuel with
  | O => acc
  | S fuel' =>
      let acc' := String (digit_char (n mod 10)) acc in
      if n <? 10 then acc' else digits_onto fuel' (n / 10) acc'
  end.

(** Decimal digits of a natural number [n]; [Z.log2 n + 1] steps are more
    than the number of its decimal digits. *)
Definition nat_digits (n : Z) : string :=
  digits_onto (S (Z.to_nat (Z.log2 n))) n EmptyString.

Definition str_int (z : Z) : string :=
  if z <? 0 then String "-" (nat_digits (- z)) else nat_digits z.

Definition zero_pad (width : nat) (n : Z) : string :=
  let d := nat_digits n in
  String.append (repeat_char "0" (width - String.length d)) d.

Fixpoint digits_value_from (acc : Z) (s : string) : Z :=
  match s with
  | EmptyString => acc
  | String c s' => digits_value_from (10 * acc + (code c - 48)) s'
  end.

Definition digits_value (s : string) : Z := digits_value_from 0 s.

(** ** Numbers: binary64 floats and their text forms *)

Definition prec : Z := 53.
Definition emax : Z := 1024.

Definition float_eqb (x y : spec_float) : bool :=
  match x, y with
  | S754_zero s, S754_zero s' => Bool.eqb s s'
  | S754_infinity s, S754_infinity s' => Bool.eqb s s'
  | S754_nan, S754_nan => true
  | S754_finite s m e, S754_finite s' m' e' =>
      Bool.eqb s s' && Pos.eqb m m' && Z.eqb e e'
  | _, _ => false
  end.

(** The binary64 value nearest to [n / d] (ties to even), for [0 < n] and
    [0 < d]. *)
Definition round_ratio (s : bool) (n d : Z) : spec_float :=
  let '(mz, ez, lz) := SFdiv_core_binary prec emax n 0 d 0 in
  binary_round_aux prec emax s mz ez lz.

(** The binary64 value nearest to [n * 10 ^ e].  Decimal exponents far
    outside the binary64 range are cut short: the value is then infinite
    or zero whatever the digits. *)
Definition float_of_decimal (s : bool) (n e : Z) : spec_float :=
  if n =? 0 then S754_zero s
  else
    let nd := Z.of_nat (String.length (nat_digits n)) in
    if 400 <? nd + e then S754_infinity s
    else if nd + e <? -400 then S754_zero s
    else if 0 <=? e then round_ratio s (n * 10 ^ e) 1
    else round_ratio s n (10 ^ (- e)).

(** *** [float(s)] *)

Fixpoint span_digits (s : string) : string * string :=
  match s with
  | EmptyString => (EmptyString, EmptyString)
  | String c s' =>
      if is_digit c
      then let '(d, r) := span_digits s' in (String c d, r)
      else (EmptyString, s)
  end.

(** An underscore is accepted only between two digits. *)
Fixpoint underscores_ok (prev_digit : bool) (s : string) : bool :=
  match s with
  | EmptyString => true
  | String c s' =>
      if Ascii.eqb c "_"
      then prev_digit
           && match s' with
              | String d _ => is_digit d
              | EmptyString => false
              end
           && underscores_ok false s'
      else underscores_ok (is_digit c) s'
  end.

Fixpoint remove_underscores (s : string) : string :=
  match s with
  | EmptyString => EmptyString
  | String c s' =>
      if Ascii.eqb c "_" then remove_underscores s'
      else String c (remove_underscores s')
  end.

Definition parse_sign (s : string) : bool * string :=
  match s with
  | String c r =>
      if Ascii.eqb c "-" then (true, r)
      else if Ascii.eqb c "+" then (false, r)
      else (false, s)
  | EmptyString => (false, s)
  end.

Definition parse_exponent (s : string) : option Z :=
  match s with
  | EmptyString => Some 0
  | String c r =>
      if Ascii.eqb (lower_char c) "e"
      then
        let '(neg, r') := parse_sign r in
        let '(d, rest) := span_digits r' in
        match d, rest with
        | String _ _, EmptyString =>
            Some (if neg then - digits_value d else digits_value d)
        | _, _ => None
        end
      else None
  end.

(** [digits [. digits] [e [sign] digits]] with at least one digit in the
    mantissa, read as a pair (integer, decimal exponent). *)
Definition parse_decimal (s : string) : option (Z * Z) :=
  let '(ip, r) := span_digits s in
  let '(fp, r') :=
    match r with
    | String c r1 => if Ascii.eqb c "." then span_digits r1 else (EmptyString, r)
    | EmptyString => (EmptyString, r)
    end in
  match String.append ip fp with
  | EmptyString => None
  | String _ _ as ds =>
      match parse_exponent r' with
      | Some e => Some (digits_value ds, e - Z.of_nat (String.length fp))
      | None => None
      end
  end.

(** White space as [float] skips it around an ASCII text: TAB..CR and the
    space (the separators FS..US, which [str.strip] removes, are not). *)
Definition is_c_space (c : ascii) : bool :=
  ((9 <=? code c) && (code c <=? 13)) || (code c =? 32).

(** [float(s)]: [None] stands for the [ValueError] Python raises. *)
Definition float_of_string (s : string) : option spec_float :=
  let t := rskip is_c_space (lskip is_c_space s) in
  if underscores_ok false t then
    let '(neg, body) := parse_sign (remove_underscores t) in
    let lb := lower body in
    if String.eqb lb "inf" || String.eqb lb "infinity"
    then Some (S754_infinity neg)
    else if String.eqb lb "nan" then Some S754_nan
    else
      match parse_decimal body with
      | Some (n, e) => Some (float_of_decimal neg n e)
      | None => None
      end
  else None.

(** *** [repr(float)]: the shortest decimal text that reads back as the
    same float *)

Definition below_pow10 (p q k : Z) : bool :=
  if 0 <=? k then p <? q * 10 ^ k else p * 10 ^ (- k) <? q.

(** The least [k] from the starting one with [p / q < 10 ^ k]. *)
Fixpoint decimal_point (fuel : nat) (p q k : Z) : Z :=
  match fuel with
  | O => k
  | S fuel' =>
      if below_pow10 p q k then k else decimal_point fuel' p q (k + 1)
  end.

(** The decimal [c * 10 ^ (k - n)] with [n] digits nearest to [x = p / q]
    among those that read back as [x], if there is one. *)
Definition digits_candidate (x : spec_float) (p q k n : Z) : option (Z * Z) :=
  let t := k - n in
  let '(a, b) := if 0 <=? t then (p, q * 10 ^ t) else (p * 10 ^ (- t), q) in
  let lo := a / b in
  let r := a mod b in
  let back c := float_eqb (float_of_decimal false c t) x in
  if r =? 0 then Some (lo, t)
  else
    match back lo, back (lo + 1) with
    | true, true =>
        match 2 * r ?= b with
        | Lt => Some (lo, t)
        | Gt => Some (lo + 1, t)
        | Eq => Some (if Z.even lo then lo else lo + 1, t)
        end
    | true, false => Some (lo, t)
    | false, true => Some (lo + 1, t)
    | false, false => None
    end.

Fixpoint shortest_digits (fuel : nat) (x : spec_float) (p q k n : Z) : Z * Z :=
  match fuel with
  | O => (p / q, 0)
  | S fuel' =>
      match digits_candidate x p q k n with
      | Some r => r
      | None => shortest_digits fuel' x p q k (n + 1)
      end
  end.

Fixpoint drop_zeros (fuel : nat) (c t : Z) : Z * Z :=
  match fuel with
  | O => (c, t)
  | S fuel' =>
      if (c mod 10 =? 0) && negb (c =? 0) then drop_zeros fuel' (c / 10) (t + 1)
      else (c, t)
  end.

Definition string_take (n : nat) (s : string) : string := String.substring 0 n s.

Definition string_drop (n : nat) (s : string) : string :=
  String.substring n (String.length s - n) s.

(** Layout of the digits [ds] with the decimal point after [decpt] of
    them: positional for [-4 < decpt <= 16], else with an exponent. *)
Definition format_repr (ds : string) (decpt : Z) : string :=
  let nd := Z.of_nat (String.length ds) in
  if (-4 <? decpt) && (decpt <=? 16) then
    if decpt <=? 0 then
      String.append "0." (String.append (repeat_char "0" (Z.to_nat (- decpt))) ds)
    else if nd <=? decpt then
      String.append ds (String.append (repeat_char "0" (Z.to_nat (decpt - nd))) ".0")
    else
      String.append (string_take (Z.to_nat decpt) ds)
        (String "." (string_drop (Z.to_nat decpt) ds))
  else
    let e := decpt - 1 in
    let mant :=
      match ds with
      | String d EmptyString => ds
      | String d rest => String d (String "." rest)
      | EmptyString => ds
      end in
    String.append mant
      (String "e" (String (if e <? 0 then "-"%char else "+"%char)
                     (zero_pad 2 (Z.abs e)))).

Definition repr_finite (x : spec_float) (m : positive) (e : Z) : string :=
  let p := if 0 <=? e then Z.pos m * 2 ^ e else Z.pos m in
  let q := if 0 <=? e then 1 else 2 ^ (- e) in
  let k := decimal_point 4 p q (((Z.log2 p - Z.log2 q) * 30103) / 100000) in
  let '(c, t) := shortest_digits 17 x p q k 1 in
  let '(c', t') := drop_zeros 400 c t in
  let ds := nat_digits c' in
  format_repr ds (Z.of_nat (String.length ds) + t').

Definition float_repr (x : spec_float) : string :=
  match x with
  | S754_zero s => if s then "-0.0" else "0.0"
  | S754_infinity s => if s then "-inf" else "inf"
  | S754_nan => "nan"
  | S754_finite s m e =>
      let r := repr_finite (S754_finite false m e) m e in
      if s then String "-" r else r
  end.

(** ** Python values and exceptions *)

Inductive num :=
  | Int (z : Z)
  | Float (f : spec_float).

(** The value of a spreadsheet cell. *)
Inductive pyval :=
  | PNone
  | PBool (b : bool)
  | PNum (n : num)
  | PStr (s : string).

Inductive json :=
  | JNull
  | JBool (b : bool)
  | JNum (n : num)
  | JStr (s : string)
  | JList (l : list json)
  | JDict (d : list (string * json)).

Inductive exn :=
  | RuntimeError (msg : string)
  | ValueError
  | KeyError (k : string)
  | TypeError
  | AttributeError
  | OSError
  | JSONDecodeError.

Inductive exc (A : Type) :=
  | Ok (a : A)
  | Raise (e : exn).

Arguments Ok {A} a.
Arguments Raise {A} e.

Definition exc_bind {A B : Type} (c : exc A) (k : A -> exc B) : exc B :=
  match c with
  | Ok a => k a
  | Raise e => Raise e
  end.

(** [try: c  except Exception: h]. *)
Definition try_except {A : Type} (c : exc A) (h : exc A) : exc A :=
  match c with
  | Ok a => Ok a
  | Raise _ => h
  end.

Notation "'do' x <- c ; k" := (exc_bind c (fun x => k))
  (at level 10, x name, c at level 100, k at level 200,
   format "'[v' 'do'  x  <-  c ; '/' k ']'").

Definition str_num (n : num) : string :=
  match n with
  | Int z => str_int z
  | Float f => float_repr f
  end.

(** [str(v)]. *)
Definition str (v : pyval) : string :=
  match v with
  | PNone => "None"
  | PBool b => if b then "True" else "False"
  | PNum n => str_num n
  | PStr s => s
  end.

(** [float(s)] as a Python call. *)
Definition float (s : string) : exc num :=
  match float_of_string s with
  | Some f => Ok (Float f)
  | None => Raise ValueError
  end.

(** *** Dictionaries: association lists in insertion order *)

Fixpoint dict_lookup {V : Type} (d : list (string * V)) (k : string) : option V :=
  match d with
  | [] => None
  | (k', v) :: d' => if String.eqb k k' then Some v else dict_lookup d' k
  end.

(** [d.get(k, default)]. *)
Definition get {V : Type} (d : list (string * V)) (k : string) (default : V) : V :=
  match dict_lookup d k with
  | Some v => v
  | None => default
  end.

(** [d[k] = v]: the key keeps its place when it is there already. *)
Fixpoint dict_set {V : Type} (d : list (string * V)) (k : string) (v : V)
  : list (string * V) :=
  match d with
  | [] => [(k, v)]
  | (k', v') :: d' =>
      if String.eqb k k' then (k', v) :: d' else (k', v') :: dict_set d' k v
  end.

Definition keys {V : Type} (d : list (string * V)) : list string := map fst d.

Definition mem (k : string) (l : list string) : bool := existsb (String.eqb k) l.

(** ** The normalizer *)

Definition row : Type := list (string * pyval).

Definition REQUIRED_HEADERS : list string :=
  ["category"; "item"; "price"; "description"; "available"; "sort"; "image_url"].

Definition norm_bool (v : pyval) (default : bool) : bool :=
  match v with
  | PNone => default
  | PBool b => b
  | _ =>
      let s := lower (strip (str v)) in
      if String.eqb s "" then default
      else mem s ["true"; "1"; "yes"; "y"; "t"]
  end.

(** The body of the [try] in [norm_sort]. *)
Definition norm_sort_try (v : pyval) (default : num) : exc num :=
  let s := strip (str v) in
  if String.eqb s "" then Ok default
  else float s.

Definition norm_sort (v : pyval) (default : num) : exc num :=
  try_except (norm_sort_try v default) (Ok default).

(** [repr] of a list of plain names, as an f-string prints it. *)
Definition repr_names (l : list string) : string :=
  String.append "["
    (String.append
       (join ", " (map (fun h => String.append "'" (String.append h "'")) l))
       "]").

Definition newline : string := String (chr 10) EmptyString.

Definition missing_headers (r : row) : list string :=
  List.filter (fun h => negb (mem h (keys r))) REQUIRED_HEADERS.

Definition schema_message (missing : list string) : string :=
  String.append "Your sheet is missing columns: "
    (String.append (repr_names missing)
       (String.append newline
          (String.append "Expected headers: " (repr_names REQUIRED_HEADERS)))).

Definition validate_headers (rows : list row) : exc unit :=
  match rows with
  | [] => Ok tt
  | r0 :: _ =>
      match missing_headers r0 with
      | [] => Ok tt
      | missing => Raise (RuntimeError (schema_message missing))
      end
  end.

(** The dictionary that the first loop of [build_menu] appends for a row. *)
Record item := {
  category : string;
  name : string;
  description : string;
  price_display : string;
  image_url : string;
  sort : num
}.

(** One turn of the first loop of [build_menu]: [None] when the row is
    skipped by a [continue]. *)
Definition row_item (r : row) : exc (option item) :=
  let category := strip (str (get r "category" (PStr ""))) in
  let name := strip (str (get r "item" (PStr ""))) in
  if String.eqb category "" || String.eqb name "" then Ok None
  else if negb (norm_bool (get r "available" (PBool true)) true) then Ok None
  else
    let price_raw := get r "price" (PStr "") in
    let price_display := strip (str price_raw) in
    do s <- norm_sort (get r "sort" (PNum (Int 0))) (Int 0);
    Ok (Some {| category := category;
                 name := name;
                 description := strip (str (get r "description" (PStr "")));
                 price_display := price_display;
                 image_url := strip (str (get r "image_url" (PStr "")));
                 sort := s |}).

Fixpoint collect_items (rows : list row) : exc (list item) :=
  match rows with
  | [] => Ok []
  | r :: rows' =>
      do o <- row_item r;
      do items <- collect_items rows';
      Ok (match o with Some it => it :: items | None => items end)
  end.

(** ** Comparing numbers: Python compares an [int] and a [float] by their
    exact values; a NaN is neither below, above nor equal to anything. *)

Inductive xreal :=
  | XNaN
  | XNegInf
  | XFin (q : Q)
  | XPosInf.

Definition float_value (f : spec_float) : xreal :=
  match f with
  | S754_zero _ => XFin 0
  | S754_infinity s => if s then XNegInf else XPosInf
  | S754_nan => XNaN
  | S754_finite s m e =>
      let v := if 0 <=? e then inject_Z (Z.pos m * 2 ^ e)
               else Qmake (Z.pos m) (Z.to_pos (2 ^ (- e))) in
      XFin (if s then Qopp v else v)
  end.

Definition num_value (n : num) : xreal :=
  match n with
  | Int z => XFin (inject_Z z)
  | Float f => float_value f
  end.

Definition xreal_lt (a b : xreal) : bool :=
  match a, b with
  | XNaN, _ | _, XNaN => false
  | XFin p, XFin q => match Qcompare p q with Lt => true | _ => false end
  | XNegInf, XNegInf => false
  | XNegInf, _ => true
  | _, XNegInf => false
  | XPosInf, _ => false
  | _, XPosInf => true
  end.

Definition xreal_eq (a b : xreal) : bool :=
  match a, b with
  | XNaN, _ | _, XNaN => false
  | XFin p, XFin q => match Qcompare p q with Eq => true | _ => false end
  | XNegInf, XNegInf => true
  | XPosInf, XPosInf => true
  | _, _ => false
  end.

(** [a < b] and [a == b] on numbers. *)
Definition num_lt (a b : num) : bool := xreal_lt (num_value a) (num_value b).
Definition num_eq (a b : num) : bool := xreal_eq (num_value a) (num_value b).

Definition is_nan (n : num) : bool :=
  match num_value n with
  | XNaN => true
  | _ => false
  end.

(** [s < t] on texts: by code points, which is the order of the UTF-8
    bytes. *)
Fixpoint str_lt (s t : string) : bool :=
  match s, t with
  | _, EmptyString => false
  | EmptyString, String _ _ => true
  | String a s', String b t' =>
      if code a <? code b then true
      else if code b <? code a then false
      else str_lt s' t'
  end.

(** [k1 < k2] on the tuples [(number, text)] used as sort keys: the first
    components decide unless they are equal. *)
Definition key_lt (k1 k2 : num * string) : bool :=
  if num_eq (fst k1) (fst k2) then str_lt (snd k1) (snd k2)
  else num_lt (fst k1) (fst k2).

(** ** [list.sort] and [min]

    [list.sort] compares with [<] only.  For a list shorter than 64
    elements CPython takes its leading run (turned round when it
    descends strictly) and places the other elements one by one by binary
    insertion; this is the function below.  On a longer list CPython
    merges runs: it yields the same list whenever [<] orders the keys,
    each being the stable sort. *)

Section ListSort.
Context {A : Type} (lt : A -> A -> bool).

(** The longest prefix of [l] that does not descend, after [prev]. *)
Fixpoint run_ascending (prev : A) (l : list A) : list A * list A :=
  match l with
  | [] => ([], [])
  | x :: l' =>
      if lt x prev then ([], l)
      else let '(r, rest) := run_ascending x l' in (x :: r, rest)
  end.

(** The longest prefix of [l] that descends strictly, after [prev]. *)
Fixpoint run_descending (prev : A) (l : list A) : list A * list A :=
  match l with
  | [] => ([], [])
  | x :: l' =>
      if lt x prev
      then let '(r, rest) := run_descending x l' in (x :: r, rest)
      else ([], l)
  end.

(** The leading run, in ascending order, and what follows it. *)
Definition count_run (l : list A) : list A * list A :=
  match l with
  | [] => ([], [])
  | [x] => ([x], [])
  | x :: (y :: _) as t =>
      if lt y x
      then let '(r, rest) := run_descending x t in (rev (x :: r), rest)
      else let '(r, rest) := run_ascending x t in (x :: r, rest)
  end.

(** Where [pivot] goes in [a], searched between [l] and [r]. *)
Fixpoint bisect (fuel : nat) (pivot : A) (a : list A) (l r : nat) : nat :=
  match fuel with
  | O => l
  | S fuel' =>
      if (l <? r)%nat then
        let p := (l + Nat.div2 (r - l))%nat in
        match nth_error a p with
        | Some y =>
            if lt pivot y then bisect fuel' pivot a l p
            else bisect fuel' pivot a (S p) r
        | None => l
        end
      else l
  end.

Definition binary_insert (a : list A) (pivot : A) : list A :=
  let p := bisect (length a) pivot a 0 (length a) in
  (firstn p a ++ pivot :: skipn p a)%list.

Definition binarysort (run rest : list A) : list A :=
  fold_left binary_insert rest run.

Definition list_sort (l : list A) : list A :=
  let '(run, rest) := count_run l in binarysort run rest.

(** [min(l, default=d)]: the first of the least elements. *)
Definition py_min (default : A) (l : list A) : A :=
  match l with
  | [] => default
  | x :: l' => fold_left (fun m y => if lt y m then y else m) l' x
  end.
End ListSort.

(** ** The aggregator *)

Definition item_key (x : item) : num * string := (sort x, lower (name x)).

Definition item_lt (x y : item) : bool := key_lt (item_key x) (item_key y).

(** [grouped.setdefault(k, []).append(it)]. *)
Fixpoint setdefault_append (grouped : list (string * list item))
    (k : string) (it : item) : list (string * list item) :=
  match grouped with
  | [] => [(k, [it])]
  | (k', l) :: grouped' =>
      if String.eqb k k' then (k', (l ++ [it])%list) :: grouped'
      else (k', l) :: setdefault_append grouped' k it
  end.

Definition group_items (items : list item) : list (string * list item) :=
  fold_left (fun grouped it => setdefault_append grouped (category it) it) items [].

(** The dictionary emitted for an item inside its category. *)
Definition emit_item (x : item) : json :=
  JDict [("name", JStr (name x));
         ("description", JStr (description x));
         ("price_display", JStr (price_display x));
         ("image_url", JStr (image_url x))].

(** A category before it is turned into a dictionary. *)
Record category_entry := {
  cat_name : string;
  cat_sort : num;
  cat_items : list item
}.

Definition make_category (g : string * list item) : category_entry :=
  let cat_items := list_sort item_lt (snd g) in
  {| cat_name := fst g;
     cat_sort := py_min num_lt (Int 0) (map sort cat_items);
     cat_items := cat_items |}.

Definition category_key (c : category_entry) : num * string :=
  (cat_sort c, lower (cat_name c)).

Definition category_lt (c d : category_entry) : bool :=
  key_lt (category_key c) (category_key d).

Definition emit_category (c : category_entry) : json :=
  JDict [("name", JStr (cat_name c));
         ("sort", JNum (cat_sort c));
         ("items", JList (map emit_item (cat_items c)))].

Definition build_categories (items : list item) : list category_entry :=
  list_sort category_lt (map make_category (group_items items)).

(** ** [json.dumps(obj, ensure_ascii=False, sort_keys=True,
    separators=(",", ":"))] *)

Definition quote : string := String (chr 34) EmptyString.
Definition backslash : string := String (chr 92) EmptyString.

Definition hex_digit (d : Z) : ascii :=
  if d <? 10 then chr (48 + d) else chr (87 + d).

(** The [digits] low hexadecimal digits of [n], most significant first. *)
Fixpoint hex_fixed (digits : nat) (n : Z) : string :=
  match digits with
  | O => EmptyString
  | S d' =>
      String.append (hex_fixed d' (n / 16)) (String (hex_digit (n mod 16)) EmptyString)
  end.

Definition escape_char (c : ascii) : string :=
  let n := code c in
  if n =? 34 then String.append backslash quote
  else if n =? 92 then String.append backslash backslash
  else if n =? 8 then String.append backslash "b"
  else if n =? 12 then String.append backslash "f"
  else if n =? 10 then String.append backslash "n"
  else if n =? 13 then String.append backslash "r"
  else if n =? 9 then String.append backslash "t"
  else if n <? 32 then String.append backslash (String "u" (hex_fixed 4 n))
  else String c EmptyString.

Definition encode_basestring (s : string) : string :=
  String.append quote (String.append (string_map_concat escape_char s) quote).

Definition dumps_num (n : num) : string :=
  match n with
  | Int z => str_int z
  | Float S754_nan => "NaN"
  | Float (S754_infinity s) => if s then "-Infinity" else "Infinity"
  | Float f => float_repr f
  end.

Definition member_lt (a b : string * string) : bool := str_lt (fst a) (fst b).

Definition dumps_member (kv : string * string) : string :=
  String.append (encode_basestring (fst kv)) (String ":" (snd kv)).

Fixpoint dumps (j : json) : string :=
  match j with
  | JNull => "null"
  | JBool b => if b then "true" else "false"
  | JNum n => dumps_num n
  | JStr s => encode_basestring s
  | JList l => String.append "[" (String.append (join "," (map dumps l)) "]")
  | JDict d =>
      let rendered := map (fun '(k, v) => (k, dumps v)) d in
      String.append "{"
        (String.append
           (join "," (map dumps_member (list_sort member_lt rendered)))
           "}")
  end.

(** ** SHA-256 on 32-bit words held in [Z] *)

Module Sha256.

Definition w32 (x : Z) : Z := x mod 2 ^ 32.

Definition add32 (x y : Z) : Z := w32 (x + y).

Definition rotr (n x : Z) : Z :=
  Z.lor (Z.shiftr x n) (w32 (Z.shiftl x (32 - n))).

Definition Ch (x y z : Z) : Z :=
  Z.lxor (Z.land x y) (Z.land (w32 (Z.lnot x)) z).

Definition Maj (x y z : Z) : Z :=
  Z.lxor (Z.lxor (Z.land x y) (Z.land x z)) (Z.land y z).

Definition Sigma0 (x : Z) : Z :=
  Z.lxor (Z.lxor (rotr 2 x) (rotr 13 x)) (rotr 22 x).

Definition Sigma1 (x : Z) : Z :=
  Z.lxor (Z.lxor (rotr 6 x) (rotr 11 x)) (rotr 25 x).

Definition sigma0 (x : Z) : Z :=
  Z.lxor (Z.lxor (rotr 7 x) (rotr 18 x)) (Z.shiftr x 3).

Definition sigma1 (x : Z) : Z :=
  Z.lxor (Z.lxor (rotr 17 x) (rotr 19 x)) (Z.shiftr x 10).

(** The round constants and the initial state are read off the prime
    numbers: the first 32 bits of the fractional parts of the cube roots
    of the first 64 primes, and of the square roots of the first 8. *)
Definition is_prime (n : Z) : bool :=
  (1 <? n)
  && forallb (fun d => negb (n mod d =? 0))
       (map Z.of_nat (seq 2 (Z.to_nat n - 2))).

Definition primes : list Z :=
  List.filter is_prime (map Z.of_nat (seq 2 310)).

(** The greatest [r] below [2 ^ bits] with [r ^ k <= n], bit by bit. *)
Fixpoint root_floor (k : Z) (bits : nat) (n r : Z) : Z :=
  match bits with
  | O => r
  | S b =>
      let c := r + 2 ^ Z.of_nat b in
      root_floor k b n (if c ^ k <=? n then c else r)
  end.

Definition root_fraction (k p : Z) : Z :=
  root_floor k 36 (p * 2 ^ (32 * k)) 0 mod 2 ^ 32.

Definition K : list Z := map (root_fraction 3) primes.

Definition H0 : list Z := map (root_fraction 2) (firstn 8 primes).

(** The message, a [0x80] byte, zero bytes, and the bit length on eight
    bytes: a whole number of 64-byte blocks. *)
Definition pad (msg : list Z) : list Z :=
  let len := Z.of_nat (length msg) in
  let bits := 8 * len in
  (msg ++ [0x80] ++ repeat 0 (Z.to_nat ((55 - len) mod 64))
    ++ map (fun i => (bits / 2 ^ (8 * i)) mod 256) [7; 6; 5; 4; 3; 2; 1; 0])%list.

Fixpoint words_of (bs : list Z) : list Z :=
  match bs with
  | a :: b :: c :: d :: r =>
      (a * 2 ^ 24 + b * 2 ^ 16 + c * 2 ^ 8 + d) :: words_of r
  | _ => []
  end.

(** The message schedule, latest word first. *)
Fixpoint extend (n : nat) (rw : list Z) : list Z :=
  match n with
  | O => rw
  | S n' =>
      let w := add32 (add32 (sigma1 (nth 1 rw 0)) (nth 6 rw 0))
                     (add32 (sigma0 (nth 14 rw 0)) (nth 15 rw 0)) in
      extend n' (w :: rw)
  end.

Definition schedule (block : list Z) : list Z :=
  rev (extend 48 (rev block)).

Definition round (st : list Z) (kw : Z * Z) : list Z :=
  match st with
  | [a; b; c; d; e; f; g; h] =>
      let t1 := add32 (add32 (add32 h (Sigma1 e)) (add32 (Ch e f g) (fst kw)))
                      (snd kw) in
      let t2 := add32 (Sigma0 a) (Maj a b c) in
      [add32 t1 t2; a; b; c; add32 d t1; e; f; g]
  | _ => st
  end.

Definition compress (h : list Z) (block : list Z) : list Z :=
  let st := fold_left round (combine K (schedule block)) h in
  map (fun p => add32 (fst p) (snd p)) (combine h st).

Fixpoint blocks (n : nat) (ws : list Z) : list (list Z) :=
  match n with
  | O => []
  | S n' => firstn 16 ws :: blocks n' (skipn 16 ws)
  end.

(** The digest: eight 32-bit words. *)
Definition digest (msg : list Z) : list Z :=
  let ws := words_of (pad msg) in
  fold_left compress (blocks (Nat.div (length ws) 16) ws) H0.

Fixpoint bytes_of (s : string) : list Z :=
  match s with
  | EmptyString => []
  | String c s' => code c :: bytes_of s'
  end.

Fixpoint hex_words (ws : list Z) : string :=
  match ws with
  | [] => EmptyString
  | w :: ws' => String.append (hex_fixed 8 w) (hex_words ws')
  end.

(** [hashlib.sha256(b).hexdigest()]. *)
Definition hexdigest (s : string) : string := hex_words (digest (bytes_of s)).

End Sha256.

Definition stable_hash (obj : json) : string := Sha256.hexdigest (dumps obj).

(** ** The clock *)

(** A UTC instant, as [datetime.now(timezone.utc)] returns it. *)
Record datetime := {
  year : Z;
  month : Z;
  day : Z;
  hour : Z;
  minute : Z;
  second : Z;
  microsecond : Z
}.

(** [now.isoformat()]. *)
Definition isoformat (t : datetime) : string :=
  String.append (zero_pad 4 (year t))
    (String "-" (String.append (zero_pad 2 (month t))
    (String "-" (String.append (zero_pad 2 (day t))
    (String "T" (String.append (zero_pad 2 (hour t))
    (String ":" (String.append (zero_pad 2 (minute t))
    (String ":" (String.append (zero_pad 2 (second t))
    (String.append
       (if microsecond t =? 0 then EmptyString
        else String "." (zero_pad 6 (microsecond t)))
       "+00:00"))))))))))).

(** [now.strftime("%Y-%m-%dT%H%M%SZ")]. *)
Definition strftime (t : datetime) : string :=
  String.append (zero_pad 4 (year t))
    (String "-" (String.append (zero_pad 2 (month t))
    (String "-" (String.append (zero_pad 2 (day t))
    (String "T" (String.append (zero_pad 2 (hour t))
    (String.append (zero_pad 2 (minute t))
    (String.append (zero_pad 2 (second t)) "Z")))))))).

(** ** [build_menu] *)

(** The document before its fingerprint is attached. *)
Definition unhashed_menu (now : datetime) (categories : list json) : list (string * json) :=
  [("generated_at", JStr (isoformat now)); ("categories", JList categories)].

Definition build_menu (now : datetime) (rows : list row) : exc json :=
  do u <- validate_headers rows;
  do items <- collect_items rows;
  let categories := map emit_category (build_categories items) in
  let menu := unhashed_menu now categories in
  Ok (JDict (dict_set menu "hash" (JStr (stable_hash (JDict menu))))).

(** ** The output writer

    The file system is a store of directories and files.  A file holds a
    JSON document (what [json.dump] wrote and [json.load] reads back), or
    is unreadable, or holds text that is not JSON.  Creating a directory
    and writing a file succeed; reading can fail. *)

Definition path : Type := list string.

Inductive fcontent :=
  | Unreadable
  | Malformed
  | Document (j : json).

Record world := {
  dirs : gset path;
  files : gmap path fcontent;
  stdout : list string
}.

Definition io (A : Type) : Type := world -> exc A * world.

Definition io_ret {A : Type} (a : A) : io A := fun w => (Ok a, w).

Definition io_bind {A B : Type} (c : io A) (k : A -> io B) : io B :=
  fun w =>
    match c w with
    | (Ok a, w') => k a w'
    | (Raise e, w') => (Raise e, w')
    end.

Definition io_lift {A : Type} (c : exc A) : io A := fun w => (c, w).

Notation "'exec' x <- c ; k" := (io_bind c (fun x => k))
  (at level 10, x name, c at level 100, k at level 200,
   format "'[v' 'exec'  x  <-  c ; '/' k ']'").

(** [str(p)] for an absolute path. *)
Definition path_str (p : path) : string := String "/" (join "/" p).

(** The path and the directories above it. *)
Definition ancestors (p : path) : list path :=
  map (fun n => firstn n p) (seq 0 (S (length p))).

(** [p.mkdir(parents=True, exist_ok=True)]. *)
Definition mkdir (p : path) : io unit := fun w =>
  (Ok tt, {| dirs := dirs w ∪ list_to_set (ancestors p);
             files := files w;
             stdout := stdout w |}).

(** [p.exists()]. *)
Definition path_exists (p : path) (w : world) : bool :=
  bool_decide (is_Some (files w !! p)) || bool_decide (p ∈ dirs w).

(** [json.load(open(p))]. *)
Definition read_json (p : path) (w : world) : exc json :=
  match files w !! p with
  | Some (Document j) => Ok j
  | Some Malformed => Raise JSONDecodeError
  | Some Unreadable => Raise OSError
  | None => Raise OSError
  end.

(** [json.dump(j, open(p, "w"), ...)]. *)
Definition write_json (p : path) (j : json) : io unit := fun w =>
  (Ok tt, {| dirs := dirs w;
             files := <[p := Document j]> (files w);
             stdout := stdout w |}).

Definition print (line : string) : io unit := fun w =>
  (Ok tt, {| dirs := dirs w;
             files := files w;
             stdout := (stdout w ++ [line])%list |}).

(** [old.get(k)]: only a dictionary has the method. *)
Definition get_method (old : json) (k : string) : exc json :=
  match old with
  | JDict d => Ok (get d k JNull)
  | _ => Raise AttributeError
  end.

(** [menu[k]]. *)
Definition getitem (menu : json) (k : string) : exc json :=
  match menu with
  | JDict d =>
      match dict_lookup d k with
      | Some v => Ok v
      | None => Raise (KeyError k)
      end
  | _ => Raise TypeError
  end.

Definition bool_num (b : bool) : num := Int (if b then 1 else 0).

(** [a == b] on the values JSON holds. *)
Fixpoint py_eq (a b : json) : bool :=
  match a, b with
  | JNull, JNull => true
  | JBool x, JBool y => Bool.eqb x y
  | JBool x, JNum n => num_eq (bool_num x) n
  | JNum n, JBool y => num_eq n (bool_num y)
  | JNum n, JNum m => num_eq n m
  | JStr s, JStr t => String.eqb s t
  | JList l, JList m =>
      (fix all2 (l m : list json) : bool :=
         match l, m with
         | [], [] => true
         | x :: l', y :: m' => py_eq x y && all2 l' m'
         | _, _ => false
         end) l m
  | JDict d, JDict e =>
      Nat.eqb (length d) (length e)
      && forallb (fun '(k, v) =>
                    match dict_lookup e k with
                    | Some v' => py_eq v v'
                    | None => false
                    end) d
  | _, _ => false
  end.

Section Writer.
(** The output directory, from the environment. *)
Variable OUT_DIR : path.

Definition SNAP_DIR : path := (OUT_DIR ++ ["snapshots"])%list.
Definition LATEST_PATH : path := (OUT_DIR ++ ["latest.json"])%list.

Definition load_existing_hash : io json := fun w =>
  if negb (path_exists LATEST_PATH w) then (Ok JNull, w)
  else
    (try_except
       (do old <- read_json LATEST_PATH w;
        get_method old "hash")
       (Ok JNull),
     w).

Definition snapshot_path (now : datetime) : path :=
  (SNAP_DIR ++ [String.append (strftime now) ".json"])%list.

Definition write_outputs (now : datetime) (menu : json) : io bool :=
  exec u1 <- mkdir OUT_DIR;
  exec u2 <- mkdir SNAP_DIR;
  exec old_hash <- load_existing_hash;
  exec new_hash <- io_lift (getitem menu "hash");
  if py_eq old_hash new_hash then
    exec u3 <- print "No change. (latest.json unchanged)";
    io_ret false
  else
    exec u3 <- write_json LATEST_PATH menu;
    let snap_path := snapshot_path now in
    exec u4 <- write_json snap_path menu;
    exec u5 <- print (String.append "Wrote latest.json and snapshot: "
                                   (path_str snap_path));
    io_ret true.

(** [main], with the rows read from the sheet and the two readings of
    the clock as arguments; like the source it returns nothing. *)
Definition main (rows : list row) (built written : datetime) : io unit :=
  exec menu <- io_lift (build_menu built rows);
  exec changed <- write_outputs written menu;
  io_ret tt.
End Writer.

(** * Specification-side notions *)


Definition is_lower_hex (c : ascii) : bool :=
  is_digit c || ((97 <=? code c) && (code c <=? 102)).

(** A well-formed fingerprint: 64 lower-case hexadecimal digits, that is
    256 bits. *)
Definition is_hex_digest (s : string) : Prop :=
  String.length s = 64%nat /\ string_forallb is_lower_hex s = true.

(** The items of the rows that the first loop of [build_menu] keeps. *)
Definition accepted_items (rows : list row) : list item :=
  flat_map (fun r => match row_item r with
                     | Ok (Some it) => [it]
                     | _ => []
                     end) rows.

Section StableSort.
Context {A : Type} (lt : A -> A -> bool).

(** [a] is not above [b]. *)
Definition le_of (a b : A) : Prop := lt b a = false.

(** [a] and [b] tie. *)
Definition tie (a b : A) : bool := negb (lt a b) && negb (lt b a).

(** [l'] is [l] sorted by [lt], ties keeping the order they have in
    [l]. *)
Definition stable_sorted (l l' : list A) : Prop :=
  Permutation l l'
  /\ StronglySorted le_of l'
  /\ forall a, In a l -> List.filter (tie a) l' = List.filter (tie a) l.

(** Insertion behind the elements that are not above [x]. *)
Fixpoint linsert (x : A) (l : list A) : list A :=
  match l with
  | [] => [x]
  | y :: l' => if lt x y then x :: l else y :: linsert x l'
  end.

Definition isort (l : list A) : list A :=
  fold_left (fun a x => linsert x a) l [].
End StableSort.

(** The distinct elements of [l], each at its first place. *)
Fixpoint first_seen (l : list string) : list string :=
  match l with
  | [] => []
  | k :: l' => k :: List.filter (fun k' => negb (String.eqb k' k)) (first_seen l')
  end.

(** A sort key, an item, a category whose number is not a NaN: the keys
    that [<] orders. *)
Definition ordered_key (k : num * string) : Prop := is_nan (fst k) = false.
Definition ordered_item (x : item) : Prop := is_nan (sort x) = false.
Definition ordered_category (c : category_entry) : Prop := is_nan (cat_sort c) = false.

(** The items of category [k], in the order they have in [items]. *)
Definition items_of (k : string) (items : list item) : list item :=
  List.filter (fun it => String.eqb (category it) k) items.

(** The groups of [items]: the categories in the order they are first
    seen, each with its items. *)
Definition groups_of (items : list item) : list (string * list item) :=
  map (fun k => (k, items_of k items)) (first_seen (map category items)).

(** The fingerprint that the latest-state file holds; [JNull], Python's
    [None], when there is none to read. *)
Definition prior_fingerprint (OUT_DIR : path) (w : world) : json :=
  match files w !! LATEST_PATH OUT_DIR with
  | Some (Document (JDict d)) => get d "hash" JNull
  | _ => JNull
  end.

(** The directories after the two [mkdir] of [write_outputs]. *)
Definition made_dirs (OUT_DIR : path) (w : world) : gset path :=
  dirs w ∪ list_to_set (ancestors OUT_DIR) ∪ list_to_set (ancestors (SNAP_DIR OUT_DIR)).

(** A text of ASCII characters. *)
Definition is_ascii (s : string) : bool :=
  string_forallb (fun c => code c <? 128) s.

(** A cell on which the embedding of [str], [strip], [lower] and [float]
    is what Python computes: an integer has at most 4300 digits, and the
    text of the cell is ASCII. *)
Definition int_fits (v : pyval) : bool :=
  match v with
  | PNum (Int z) => Z.abs z <? 10 ^ 4300
  | _ => true
  end.

Definition plain_cellb (v : pyval) : bool := int_fits v && is_ascii (str v).

Definition plain_cell (v : pyval) : Prop := plain_cellb v = true.

Definition plain_row (r : row) : Prop := Forall (fun kv => plain_cell (snd kv)) r.

(** A store in which [write_outputs] can make its directories and write
    its two files: no file stands where a directory is to be, and no
    directory where a file is to be written. *)
Definition writable (OUT_DIR : path) (now : datetime) (w : world) : Prop :=
  Forall (fun p => files w !! p = None) (ancestors (SNAP_DIR OUT_DIR))
  /\ (LATEST_PATH OUT_DIR ∉ dirs w)
  /\ (snapshot_path OUT_DIR now ∉ dirs w).

(** The order of the items of a category, as [build_menu] writes the key:
    the sort, then the lower-cased name. *)
Definition item_before (x y : item) : bool :=
  key_lt (sort x, lower (name x)) (sort y, lower (name y)).


(** The shape of the objects of the document. *)
Definition item_object (j : json) : Prop :=
  exists n d p u,
    j = JDict [("name", JStr n); ("description", JStr d);
               ("price_display", JStr p); ("image_url", JStr u)].

Definition category_object (j : json) : Prop :=
  exists n s its,
    j = JDict [("name", JStr n); ("sort", JNum s); ("items", JList its)]
    /\ Forall item_object its.

(** * Sample data *)

Definition sample_time : datetime :=
  {| year := 2024; month := 1; day := 15;
     hour := 14; minute := 30; second := 0; microsecond := 0 |}.

Definition later_time : datetime :=
  {| year := 2024; month := 1; day := 15;
     hour := 14; minute := 30; second := 1; microsecond := 0 |}.

(** A row of the sheet with every required column. *)
Definition menu_row (category item : string) (price sort : pyval) : row :=
  [("category", PStr category); ("item", PStr item); ("price", price);
   ("description", PStr ""); ("available", PStr "yes"); ("sort", sort);
   ("image_url", PStr "")].

Definition tea_rows : list row :=
  [menu_row "Drinks" "Tea" (PStr " $5 ") (PNum (Int 1))].

Definition tea_item : item :=
  {| category := "Drinks"; name := "Tea"; description := "";
     price_display := "$5"; image_url := "";
     sort := Float (S754_finite false 4503599627370496 (-52)) |}.

(** The document built from [tea_rows] at [sample_time]. *)
Definition tea_menu : json :=
  JDict [("generated_at", JStr "2024-01-15T14:30:00+00:00");
         ("categories",
          JList [JDict [("name", JStr "Drinks");
                        ("sort", JNum (Float (S754_finite false 4503599627370496 (-52))));
                        ("items",
                         JList [JDict [("name", JStr "Tea");
                                       ("description", JStr "");
                                       ("price_display", JStr "$5");
                                       ("image_url", JStr "")]])]]);
         ("hash",
          JStr "cafbea78706504d1c1b92b847066a2d549bd1c7941eb5709eb1591c10ea6c696")].



(** A row without the [price] column. *)
Definition priceless_row : row :=
  [("category", PStr "Drinks"); ("item", PStr "Tea");
   ("description", PStr ""); ("available", PStr "yes"); ("sort", PNum (Int 1));
   ("image_url", PStr "")].

Definition sample_out : path := ["srv"; "menu"].

Definition old_document : json := JDict [("hash", JStr "0a")].
Definition new_document : json := JDict [("hash", JStr "0b")].

Definition empty_world : world :=
  {| dirs := ∅; files := ∅; stdout := [] |}.

(** A store that holds a latest-state file and a snapshot taken at
    [sample_time]. *)
Definition crowded_world : world :=
  {| dirs := ∅;
     files := <[snapshot_path sample_out sample_time := Document old_document]>
                (<[LATEST_PATH sample_out := Document old_document]> ∅);
     stdout := [] |}.


Definition cake_item : item :=
  {| category := "Cakes"; name := "Tart"; description := "";
     price_display := "4"; image_url := ""; sort := Int 0 |}.

(** A row without the [price] and [sort] columns. *)
Definition bare_row : row :=
  [("category", PStr "Drinks"); ("item", PStr "Tea");
   ("description", PStr ""); ("available", PStr "yes");
   ("image_url", PStr "")].


(** An instant of the years 1000 to 9999, the fields in the ranges of the
    calendar and the clock. *)
Definition calendar_time (t : datetime) : Prop :=
  1000 <= year t <= 9999 /\ 1 <= month t <= 12 /\ 1 <= day t <= 31
  /\ 0 <= hour t <= 23 /\ 0 <= minute t <= 59 /\ 0 <= second t <= 59.

(** [t1] is at least one second of the clock before [t2]. *)
Definition earlier_second (t1 t2 : datetime) : Prop :=
  year t1 < year t2
  \/ year t1 = year t2
     /\ (month t1 < month t2
         \/ month t1 = month t2
            /\ (day t1 < day t2
                \/ day t1 = day t2
                   /\ (hour t1 < hour t2
                       \/ hour t1 = hour t2
                          /\ (minute t1 < minute t2
                              \/ minute t1 = minute t2
                                 /\ second t1 < second t2)))).

(** A check by evaluation: the numbers [n], [n + 1], ..., [n + count],
    zero-padded to [w] digits, have [w] characters each and ascend as
    texts. *)
Fixpoint pads_ascend (w count : nat) (n : Z) : bool :=
  Nat.eqb (String.length (zero_pad w n)) w
  && match count with
     | O => true
     | S c => str_lt (zero_pad w n) (zero_pad w (n + 1)) && pads_ascend w c (n + 1)
     end.

(** A byte that is not a control character. *)
Definition printable (c : ascii) : bool := 32 <=? code c.

(** Induction on a JSON value, the elements of a list and the values of
    an object being smaller. *)
Section JsonInduction.
Variable P : json -> Prop.
Hypothesis Hnull : P JNull.
Hypothesis Hbool : forall b, P (JBool b).
Hypothesis Hnum : forall n, P (JNum n).
Hypothesis Hstr : forall s, P (JStr s).
Hypothesis Hlist : forall l, Forall P l -> P (JList l).
Hypothesis Hdict : forall d, Forall (fun kv => P (snd kv)) d -> P (JDict d).

Fixpoint json_induction (j : json) : P j :=
  match j with
  | JNull => Hnull
  | JBool b => Hbool b
  | JNum n => Hnum n
  | JStr s => Hstr s
  | JList l =>
      Hlist l
        ((fix all (l : list json) : Forall P l :=
            match l with
            | [] => @List.Forall_nil json P
            | x :: l' => @List.Forall_cons json P x l' (json_induction x) (all l')
            end) l)
  | JDict d =>
      Hdict d
        ((fix all (d : list (string * json)) : Forall (fun kv => P (snd kv)) d :=
            match d with
            | [] => @List.Forall_nil (string * json) (fun kv => P (snd kv))
            | kv :: d' =>
                @List.Forall_cons (string * json) (fun kv => P (snd kv)) kv d'
                  (json_induction (snd kv)) (all d')
            end) d)
  end.
End JsonInduction.
(** * Basic facts *)

Lemma norm_sort_total (v : pyval) (default : num) :
  exists x, norm_sort v default = Ok x.
Proof.
  unfold norm_sort, try_except.
  destruct (norm_sort_try v default); eauto.
Qed.




Lemma row_item_cases (r : row) :
  let category := strip (str (get r "category" (PStr ""))) in
  let name := strip (str (get r "item" (PStr ""))) in
  (category = "" \/ name = ""
   \/ norm_bool (get r "available" (PBool true)) true = false)
  /\ row_item r = Ok None
  \/ (category <> "" /\ name <> ""
      /\ norm_bool (get r "available" (PBool true)) true = true)
     /\ exists s,
         norm_sort (get r "sort" (PNum (Int 0))) (Int 0) = Ok s
         /\ row_item r =
              Ok (Some {| category := category;
                          name := name;
                          description := strip (str (get r "description" (PStr "")));
                          price_display := strip (str (get r "price" (PStr "")));
                          image_url := strip (str (get r "image_url" (PStr "")));
                          sort := s |}).
Proof.
  intros category name. unfold row_item. fold category name.
  destruct (String.eqb_spec category ""); [left; auto|].
  destruct (String.eqb_spec name ""); [left; auto|].
  simpl.
  destruct (norm_bool (get r "available" (PBool true)) true) eqn:Hb;
    [|left; auto].
  right. split; [auto|].
  destruct (norm_sort_total (get r "sort" (PNum (Int 0))) (Int 0)) as [s Hs].
  exists s. rewrite Hs. auto.
Qed.

Lemma row_item_total (r : row) : exists o, row_item r = Ok o.
Proof.
  destruct (row_item_cases r) as [[_ H]|[_ [s [_ H]]]]; eauto.
Qed.

Lemma collect_items_accepted (rows : list row) :
  collect_items rows = Ok (accepted_items rows).
Proof.
  induction rows as [|r rows IH]; [reflexivity|].
  simpl. destruct (row_item_total r) as [o Ho]. rewrite Ho. simpl.
  rewrite IH. simpl. destruct o; reflexivity.
Qed.

(** * [list.sort]: what holds for every comparison *)

Section SortPermutation.
Context {A : Type} (lt : A -> A -> bool).

Lemma run_ascending_app (l : list A) : forall prev r rest,
  run_ascending lt prev l = (r, rest) -> l = (r ++ rest)%list.
Proof.
  induction l as [|x l IH]; intros prev r rest H; simpl in H.
  - inversion H. reflexivity.
  - destruct (lt x prev).
    + inversion H. reflexivity.
    + destruct (run_ascending lt x l) as [r' rest'] eqn:E.
      inversion H; subst. simpl. f_equal. eapply IH; eauto.
Qed.

Lemma run_descending_app (l : list A) : forall prev r rest,
  run_descending lt prev l = (r, rest) -> l = (r ++ rest)%list.
Proof.
  induction l as [|x l IH]; intros prev r rest H; simpl in H.
  - inversion H. reflexivity.
  - destruct (lt x prev).
    + destruct (run_descending lt x l) as [r' rest'] eqn:E.
      inversion H; subst. simpl. f_equal. eapply IH; eauto.
    + inversion H. reflexivity.
Qed.

Lemma count_run_perm (l run rest : list A) :
  count_run lt l = (run, rest) -> Permutation (run ++ rest) l.
Proof.
  destruct l as [|x [|y l]]; simpl; intros H.
  - inversion H. constructor.
  - inversion H. reflexivity.
  - destruct (lt y x) eqn:E.
    + destruct (run_descending lt y l) as [r' rest'] eqn:E'.
      inversion H; subst.
      apply run_descending_app in E'. subst l.
      change (Permutation (rev (x :: y :: r') ++ rest) ((x :: y :: r') ++ rest)).
      apply Permutation_app_tail. symmetry. apply Permutation_rev.
    + destruct (run_ascending lt y l) as [r' rest'] eqn:E'.
      inversion H; subst.
      apply run_ascending_app in E'. subst l. reflexivity.
Qed.

Lemma binary_insert_perm (a : list A) (x : A) :
  Permutation (binary_insert lt a x) (x :: a).
Proof.
  unfold binary_insert.
  set (p := bisect lt (length a) x a 0 (length a)).
  rewrite <- (firstn_skipn p a) at 3.
  symmetry. apply Permutation_middle.
Qed.

Lemma binarysort_perm (rest : list A) : forall run,
  Permutation (binarysort lt run rest) (run ++ rest).
Proof.
  unfold binarysort.
  induction rest as [|x rest IH]; intros run; simpl.
  - rewrite List.app_nil_r. reflexivity.
  - rewrite IH. rewrite binary_insert_perm.
    simpl. apply Permutation_middle.
Qed.

Lemma list_sort_perm (l : list A) : Permutation (list_sort lt l) l.
Proof.
  unfold list_sort. destruct (count_run lt l) as [run rest] eqn:E.
  rewrite binarysort_perm. eapply count_run_perm; eauto.
Qed.

Lemma linsert_perm (x : A) (l : list A) : Permutation (linsert lt x l) (x :: l).
Proof.
  induction l as [|y l IH]; simpl; [reflexivity|].
  destruct (lt x y); [reflexivity|].
  rewrite IH. apply perm_swap.
Qed.

(** A strictly descending run is turned round by the insertions. *)
Lemma insert_descending (r : list A) : forall prev rest acc,
  run_descending lt prev (r ++ rest) = (r, rest) ->
  fold_left (fun a x => linsert lt x a) r (prev :: acc)
  = (rev r ++ prev :: acc)%list.
Proof.
  induction r as [|x r IH]; intros prev rest acc H; [reflexivity|].
  simpl in H. destruct (lt x prev) eqn:E.
  - destruct (run_descending lt x (r ++ rest)) as [r' rest'] eqn:E'.
    assert (r' = r /\ rest' = rest) as [-> ->] by (inversion H; auto).
    simpl. rewrite E. rewrite (IH x rest (prev :: acc) E').
    rewrite <- List.app_assoc. reflexivity.
  - inversion H.
Qed.
End SortPermutation.

(** * [list.sort] on keys that [<] orders *)

Section SortOrder.
Context {A : Type} (lt : A -> A -> bool) (P : A -> Prop).

Hypothesis lt_irrefl : forall a, P a -> lt a a = false.
Hypothesis lt_trans : forall a b c, P a -> P b -> P c ->
  lt a b = true -> lt b c = true -> lt a c = true.
Hypothesis lt_negtrans : forall a b c, P a -> P b -> P c ->
  lt a b = false -> lt b c = false -> lt a c = false.

Local Abbreviation le := (le_of lt).
Local Abbreviation ins := (fun a x => linsert lt x a).

Lemma lt_asym (a b : A) : P a -> P b -> lt a b = true -> lt b a = false.
Proof.
  intros Pa Pb H. destruct (lt b a) eqn:E; [|reflexivity].
  rewrite <- (lt_irrefl a Pa). symmetry. eapply lt_trans; eauto.
Qed.

Lemma le_trans (a b c : A) : P a -> P b -> P c -> le a b -> le b c -> le a c.
Proof. unfold le_of. intros. eapply lt_negtrans with (b := b); eauto. Qed.

Lemma lt_le_lt (a b c : A) : P a -> P b -> P c ->
  lt a b = true -> le b c -> lt a c = true.
Proof.
  unfold le_of. intros Pa Pb Pc H1 H2.
  destruct (lt a c) eqn:E; [reflexivity|].
  rewrite <- H1. symmetry. eapply lt_negtrans with (b := c); eauto.
Qed.

Lemma Forall_linsert (Q : A -> Prop) (x : A) (l : list A) :
  Q x -> Forall Q l -> Forall Q (linsert lt x l).
Proof.
  intros Hx Hl. induction Hl as [|y l Hy Hl IH]; simpl.
  - constructor; auto.
  - destruct (lt x y); repeat constructor; auto.
Qed.

Lemma linsert_sorted (x : A) (l : list A) :
  P x -> Forall P l -> StronglySorted le l -> StronglySorted le (linsert lt x l).
Proof.
  intros Px Pl Hs. induction Hs as [|y l Hs IH Hy]; simpl.
  - repeat constructor.
  - inversion Pl as [|? ? Py Pl']; subst.
    destruct (lt x y) eqn:E.
    + constructor; [constructor; auto|].
      constructor; [unfold le_of; apply lt_asym; auto|].
      rewrite List.Forall_forall in *. intros z Hz.
      apply le_trans with (b := y); auto.
      unfold le_of. apply lt_asym; auto.
    + constructor; [auto|].
      apply Forall_linsert; auto.
Qed.

Lemma fold_ins_sorted (l : list A) : forall acc,
  Forall P l -> Forall P acc -> StronglySorted le acc ->
  StronglySorted le (fold_left ins l acc) /\ Forall P (fold_left ins l acc).
Proof.
  induction l as [|x l IH]; intros acc Pl Pacc Hs; simpl; [auto|].
  inversion Pl; subst.
  apply IH; auto using linsert_sorted, Forall_linsert.
Qed.

Lemma isort_sorted (l : list A) :
  Forall P l -> StronglySorted le (isort lt l) /\ Forall P (isort lt l).
Proof. intros; apply fold_ins_sorted; auto; constructor. Qed.

(** The place of [x] is behind the last element that is not above it. *)
Lemma linsert_app (x : A) (l1 l2 : list A) :
  Forall (fun y => lt x y = false) l1 ->
  match l2 with [] => True | y :: _ => lt x y = true end ->
  linsert lt x (l1 ++ l2) = (l1 ++ x :: l2)%list.
Proof.
  intros H1 H2. induction H1 as [|y l1 Hy H1 IH]; simpl.
  - destruct l2 as [|y l2]; [reflexivity|]. simpl. rewrite H2. reflexivity.
  - rewrite Hy. f_equal. exact IH.
Qed.

Lemma sorted_nth (a : list A) : forall i j y z,
  StronglySorted le a -> (i < j)%nat ->
  nth_error a i = Some y -> nth_error a j = Some z -> le y z.
Proof.
  induction a as [|h a IH]; intros i j y z Hs Hij Hi Hj.
  - destruct i; discriminate.
  - inversion Hs as [|? ? Hs' Hh]; subst.
    destruct j as [|j]; [inversion Hij|]. simpl in Hj.
    destruct i as [|i]; simpl in Hi.
    + inversion Hi; subst. rewrite List.Forall_forall in Hh.
      apply Hh. eapply nth_error_In; eauto.
    + apply (IH i j y z Hs'); [apply PeanoNat.lt_S_n; exact Hij|exact Hi|exact Hj].
Qed.

Lemma bisect_spec (x : A) (a : list A) :
  P x -> Forall P a -> StronglySorted le a ->
  forall fuel l r,
    (l <= r <= length a)%nat -> (r - l <= fuel)%nat ->
    (forall i y, (i < l)%nat -> nth_error a i = Some y -> lt x y = false) ->
    (forall i y, (r <= i)%nat -> nth_error a i = Some y -> lt x y = true) ->
    let p := bisect lt fuel x a l r in
    (p <= length a)%nat
    /\ (forall i y, (i < p)%nat -> nth_error a i = Some y -> lt x y = false)
    /\ (forall i y, (p <= i)%nat -> nth_error a i = Some y -> lt x y = true).
Proof.
  intros Px Pa Hs.
  assert (Pnth : forall i y, nth_error a i = Some y -> P y).
  { intros i y H. rewrite List.Forall_forall in Pa. apply Pa.
    eapply nth_error_In; eauto. }
  induction fuel as [|fuel IH]; intros l r Hlr Hf Hlo Hhi; simpl.
  - assert (l = r) by lia. subst. repeat split; auto; lia.
  - destruct (Nat.ltb_spec l r) as [Hlt|Hge].
    2:{ assert (l = r) by lia. subst. repeat split; auto; lia. }
    set (m := (l + Nat.div2 (r - l))%nat).
    assert (Hm : (l <= m < r)%nat).
    { unfold m. rewrite Nat.div2_div. pose proof (Nat.div_lt (r - l) 2). lia. }
    destruct (nth_error a m) as [y|] eqn:Em.
    2:{ apply nth_error_None in Em. lia. }
    destruct (lt x y) eqn:Exy.
    + apply IH; auto; try lia.
      intros i z Hi Hz.
      destruct (Nat.eq_dec i m) as [->|Hne].
      * rewrite Em in Hz. inversion Hz; subst. exact Exy.
      * destruct (Nat.ltb_spec i r); [|apply (Hhi i); auto].
        apply lt_le_lt with (b := y); eauto.
        eapply sorted_nth with (i := m) (j := i); eauto. lia.
    + apply IH; auto; try lia.
      intros i z Hi Hz.
      destruct (Nat.eq_dec i m) as [->|Hne].
      * rewrite Em in Hz. inversion Hz; subst. exact Exy.
      * destruct (Nat.ltb_spec i l); [apply (Hlo i); auto|].
        apply lt_negtrans with (b := y); eauto.
        eapply sorted_nth with (i := i) (j := m); eauto. lia.
Qed.

Lemma Forall_firstn_nth (Q : A -> Prop) (a : list A) : forall p,
  (forall i y, (i < p)%nat -> nth_error a i = Some y -> Q y) ->
  Forall Q (firstn p a).
Proof.
  induction a as [|h a IH]; intros p H.
  - rewrite firstn_nil. constructor.
  - destruct p as [|p]; simpl; constructor.
    + apply (H 0%nat); [lia|reflexivity].
    + apply IH. intros i y Hi Hy. apply (H (S i)); [lia|exact Hy].
Qed.

Lemma skipn_head_nth (a : list A) : forall p y t,
  skipn p a = y :: t -> nth_error a p = Some y.
Proof.
  induction a as [|h a IH]; intros p y t H.
  - destruct p; discriminate.
  - destruct p as [|p]; simpl in *.
    + inversion H; reflexivity.
    + eapply IH; eauto.
Qed.

Lemma binary_insert_linsert (a : list A) (x : A) :
  P x -> Forall P a -> StronglySorted le a ->
  binary_insert lt a x = linsert lt x a.
Proof.
  intros Px Pa Hs. unfold binary_insert.
  assert (Hlo0 : forall i y, (i < 0)%nat -> nth_error a i = Some y -> lt x y = false)
    by (intros i y Hi; inversion Hi).
  assert (Hhi0 : forall i y, (length a <= i)%nat -> nth_error a i = Some y ->
                             lt x y = true).
  { intros i y Hi Hy. apply nth_error_None in Hi. congruence. }
  assert (Hlr : (0 <= length a <= length a)%nat) by lia.
  assert (Hf : (length a - 0 <= length a)%nat) by lia.
  destruct (bisect_spec x a Px Pa Hs (length a) 0%nat (length a) Hlr Hf Hlo0 Hhi0)
    as (Hp & Hlo & Hhi).
  set (p := bisect lt (length a) x a 0 (length a)) in *.
  rewrite <- (firstn_skipn p a) at 3.
  symmetry. apply linsert_app.
  - apply Forall_firstn_nth. exact Hlo.
  - destruct (skipn p a) as [|y t] eqn:E; [exact I|].
    apply (Hhi p); [lia|]. eapply skipn_head_nth; eauto.
Qed.

Lemma binarysort_fold (rest : list A) : forall r0,
  Forall P rest -> Forall P r0 -> StronglySorted le r0 ->
  binarysort lt r0 rest = fold_left ins rest r0.
Proof.
  unfold binarysort.
  induction rest as [|x rest IH]; intros r0 Prest Pr Hs; simpl; [reflexivity|].
  inversion Prest; subst.
  rewrite binary_insert_linsert; auto.
  apply IH; auto using linsert_sorted, Forall_linsert.
Qed.

Lemma sorted_snoc (l : list A) (x : A) :
  StronglySorted le (l ++ [x]) ->
  StronglySorted le l /\ Forall (fun y => lt x y = false) l.
Proof.
  induction l as [|y l IH]; simpl; intros H.
  - split; constructor.
  - inversion H as [|? ? Hs Hy]; subst.
    destruct (IH Hs) as [Hs' Hx].
    rewrite List.Forall_app in Hy. destruct Hy as [Hy Hyx].
    split; constructor; auto.
    inversion Hyx; auto.
Qed.

Lemma isort_snoc (l : list A) (x : A) :
  isort lt (l ++ [x]) = linsert lt x (isort lt l).
Proof. unfold isort. rewrite fold_left_app. reflexivity. Qed.

(** A sorted list is left as it is. *)
Lemma isort_sorted_id (l : list A) :
  StronglySorted le l -> isort lt l = l.
Proof.
  induction l as [|x l IH] using rev_ind; intros Hs; [reflexivity|].
  apply sorted_snoc in Hs. destruct Hs as [Hs Hx].
  rewrite isort_snoc, IH by assumption.
  rewrite <- (List.app_nil_r l) at 1.
  rewrite linsert_app; auto.
Qed.

Lemma run_ascending_sorted (l : list A) : forall prev r rest,
  P prev -> Forall P l ->
  run_ascending lt prev l = (r, rest) -> StronglySorted le (prev :: r).
Proof.
  induction l as [|x l IH]; intros prev r rest Pp Pl H; simpl in H.
  - inversion H. repeat constructor.
  - inversion Pl as [|? ? Px Pl']; subst.
    destruct (lt x prev) eqn:E.
    + inversion H. repeat constructor.
    + destruct (run_ascending lt x l) as [r' rest'] eqn:E'.
      inversion H; subst.
      assert (Hs : StronglySorted le (x :: r')) by (eapply IH; eauto).
      assert (Pr : Forall P r').
      { apply run_ascending_app in E'. subst l.
        rewrite List.Forall_app in Pl'. tauto. }
      constructor; [exact Hs|].
      constructor; [exact E|].
      inversion Hs as [|? ? _ Hx]; subst.
      rewrite List.Forall_forall in *. intros z Hz.
      apply le_trans with (b := x); auto.
Qed.

(** The leading run is the sorted form of the elements it is made of. *)
Lemma count_run_isort (l r0 rest : list A) :
  Forall P l -> count_run lt l = (r0, rest) ->
  exists l1, l = (l1 ++ rest)%list /\ r0 = isort lt l1.
Proof.
  intros Pl H. destruct l as [|x [|y l]]; simpl in H.
  - inversion H. exists []. auto.
  - inversion H. exists [x]. auto.
  - inversion Pl as [|? ? Px Pl']; subst.
    destruct (lt y x) eqn:E.
    + destruct (run_descending lt y l) as [r' rest'] eqn:E'.
      inversion H; subst.
      pose proof (run_descending_app lt _ _ _ _ E') as ->.
      exists (x :: y :: r'). split; [reflexivity|].
      unfold isort. simpl. rewrite E.
      assert (E2 : run_descending lt y (r' ++ rest) = (r', rest)) by exact E'.
      rewrite (insert_descending lt r' y rest [x] E2).
      rewrite <- !List.app_assoc. reflexivity.
    + destruct (run_ascending lt y l) as [r' rest'] eqn:E'.
      inversion H; subst.
      pose proof (run_ascending_app lt _ _ _ _ E') as ->.
      exists (x :: y :: r'). split; [reflexivity|].
      symmetry. apply isort_sorted_id.
      apply (run_ascending_sorted (y :: r' ++ rest) x (y :: r') rest); auto.
      simpl. rewrite E, E'. reflexivity.
Qed.

(** On ordered keys [list.sort] is the insertion sort. *)
Lemma list_sort_isort (l : list A) :
  Forall P l -> list_sort lt l = isort lt l.
Proof.
  intros Pl. unfold list_sort.
  destruct (count_run lt l) as [r0 rest] eqn:E.
  destruct (count_run_isort l r0 rest Pl E) as (l1 & -> & ->).
  rewrite List.Forall_app in Pl. destruct Pl as [P1 P2].
  destruct (isort_sorted l1 P1) as [Hs Pi].
  rewrite binarysort_fold by assumption.
  unfold isort. rewrite fold_left_app. reflexivity.
Qed.

Lemma tie_trans (a b c : A) : P a -> P b -> P c ->
  tie lt a b = true -> tie lt a c = true -> tie lt b c = true.
Proof.
  unfold tie. intros Pa Pb Pc H1 H2.
  apply andb_true_iff in H1, H2.
  destruct H1 as [H1 H1'], H2 as [H2 H2'].
  apply negb_true_iff in H1, H1', H2, H2'.
  apply andb_true_iff; split; apply negb_true_iff.
  - apply lt_negtrans with (b := a); auto.
  - apply lt_negtrans with (b := a); auto.
Qed.

Lemma filter_tie_linsert (a x : A) (l : list A) :
  P a -> P x -> Forall P l -> StronglySorted le l ->
  List.filter (tie lt a) (linsert lt x l)
  = if tie lt a x then (List.filter (tie lt a) l ++ [x])%list
    else List.filter (tie lt a) l.
Proof.
  intros Pa Px Pl Hs. induction Hs as [|y l Hs IH Hy]; simpl.
  - destruct (tie lt a x); reflexivity.
  - inversion Pl as [|? ? Py Pl']; subst.
    destruct (lt x y) eqn:E; simpl.
    + destruct (tie lt a x) eqn:Tx; [|reflexivity].
      assert (Hnone : List.filter (tie lt a) (y :: l) = []).
      { assert (F : Forall (fun z => tie lt a z = false) (y :: l)).
        { assert (Fy : Forall (fun z => lt x z = true) (y :: l)).
          { constructor; [exact E|].
            rewrite List.Forall_forall in *. intros z Hz.
            apply lt_le_lt with (b := y); auto. }
          rewrite List.Forall_forall in *. intros z Hz.
          destruct (tie lt a z) eqn:Tz; [|reflexivity].
          assert (Pz : P z) by (destruct Hz as [<-|Hz]; auto).
          pose proof (tie_trans a x z Pa Px Pz Tx Tz) as T.
          unfold tie in T. rewrite (Fy z Hz) in T. discriminate. }
        clear -F. induction F as [|z l0 Hz F IH0]; simpl; [reflexivity|].
        rewrite Hz. exact IH0. }
      simpl in Hnone. rewrite Hnone. reflexivity.
    + rewrite (IH Pl').
      destruct (tie lt a y), (tie lt a x); reflexivity.
Qed.

Lemma isort_stable (a : A) (l : list A) :
  P a -> Forall P l ->
  List.filter (tie lt a) (isort lt l) = List.filter (tie lt a) l.
Proof.
  intros Pa. induction l as [|x l IH] using rev_ind; intros Pl; [reflexivity|].
  rewrite List.Forall_app in Pl. destruct Pl as [Pl Px].
  inversion Px; subst.
  destruct (isort_sorted l Pl) as [Hs Pi].
  rewrite isort_snoc, filter_tie_linsert, IH, List.filter_app by auto.
  simpl. destruct (tie lt a x); [reflexivity|].
  rewrite List.app_nil_r. reflexivity.
Qed.

(** [list.sort] sorts, and keeps ties in their order. *)
Lemma list_sort_stable_sorted (l : list A) :
  Forall P l -> stable_sorted lt l (list_sort lt l).
Proof.
  intros Pl. split; [symmetry; apply list_sort_perm|].
  rewrite list_sort_isort by assumption.
  split; [apply isort_sorted; assumption|].
  intros a Ha. apply isort_stable; auto.
  rewrite List.Forall_forall in Pl. auto.
Qed.

(** [min] returns an element that none is below. *)
Lemma py_min_least (d x : A) (l : list A) :
  Forall P (x :: l) ->
  let m := py_min lt d (x :: l) in
  In m (x :: l) /\ Forall (fun y => lt y m = false) (x :: l).
Proof.
  simpl. revert x.
  induction l as [|y l IH]; intros x Pl; simpl.
  - split; [auto|]. constructor; [|constructor].
    inversion Pl; auto.
  - inversion Pl as [|? ? Px Pl']; subst.
    inversion Pl' as [|? ? Py Pl'']; subst.
    destruct (lt y x) eqn:E.
    + destruct (IH y Pl') as [Hin Hall].
      split; [destruct Hin; auto|].
      inversion Hall as [|? ? Hy Hall']; subst.
      constructor; [|constructor; auto].
      set (m := fold_left (fun m z => if lt z m then z else m) l y) in *.
      assert (Pm : P m).
      { rewrite List.Forall_forall in Pl'. apply Pl'. exact Hin. }
      apply lt_negtrans with (b := y); auto.
      apply lt_asym; auto.
    + assert (Pxl : Forall P (x :: l)) by (constructor; auto).
      destruct (IH x Pxl) as [Hin Hall].
      split; [destruct Hin; auto|].
      inversion Hall as [|? ? Hx Hall']; subst.
      constructor; [auto|]. constructor; [|auto].
      set (m := fold_left (fun m z => if lt z m then z else m) l x) in *.
      assert (Pm : P m).
      { rewrite List.Forall_forall in Pxl. apply Pxl. exact Hin. }
      apply lt_negtrans with (b := x); auto.
Qed.
End SortOrder.

(** * The order of the sort keys *)

Lemma str_lt_irrefl (s : string) : str_lt s s = false.
Proof.
  induction s as [|a s IH]; simpl; [reflexivity|].
  rewrite Z.ltb_irrefl. exact IH.
Qed.

Lemma str_lt_trans (s : string) : forall t u,
  str_lt s t = true -> str_lt t u = true -> str_lt s u = true.
Proof.
  induction s as [|a s IH]; intros [|b t] [|c u]; simpl; try congruence.
  destruct (Z.ltb_spec (code a) (code b)), (Z.ltb_spec (code b) (code a)),
    (Z.ltb_spec (code b) (code c)), (Z.ltb_spec (code c) (code b)),
    (Z.ltb_spec (code a) (code c)), (Z.ltb_spec (code c) (code a));
    try congruence; try lia.
  apply IH.
Qed.

Lemma str_lt_negtrans (s : string) : forall t u,
  str_lt s t = false -> str_lt t u = false -> str_lt s u = false.
Proof.
  induction s as [|a s IH]; intros [|b t] [|c u]; simpl; try congruence.
  destruct (Z.ltb_spec (code a) (code b)), (Z.ltb_spec (code b) (code a)),
    (Z.ltb_spec (code b) (code c)), (Z.ltb_spec (code c) (code b)),
    (Z.ltb_spec (code a) (code c)), (Z.ltb_spec (code c) (code a));
    try congruence; try lia.
  apply IH.
Qed.

Ltac qcompare_props :=
  repeat match goal with
         | H : (?p ?= ?q)%Q = Lt |- _ => apply <- Qlt_alt in H
         | H : (?p ?= ?q)%Q = Gt |- _ => apply <- Qgt_alt in H
         | H : (?p ?= ?q)%Q = Eq |- _ => apply <- Qeq_alt in H
         end.

Lemma key_lt_irrefl (a : num * string) : ordered_key a -> key_lt a a = false.
Proof.
  destruct a as [x s]. unfold ordered_key, key_lt, num_eq, num_lt, is_nan. simpl.
  destruct (num_value x) as [| |q|]; simpl; try discriminate;
    intros _; try apply str_lt_irrefl.
  destruct (q ?= q)%Q eqn:E; [apply str_lt_irrefl| |]; qcompare_props; lra.
Qed.

Lemma key_lt_trans (a b c : num * string) :
  ordered_key a -> ordered_key b -> ordered_key c ->
  key_lt a b = true -> key_lt b c = true -> key_lt a c = true.
Proof.
  destruct a as [x s], b as [y t], c as [z u].
  unfold ordered_key, key_lt, num_eq, num_lt, is_nan. simpl.
  destruct (num_value x) as [| |p|], (num_value y) as [| |q|],
    (num_value z) as [| |r|]; simpl; try discriminate;
    intros _ _ _; try congruence; try apply str_lt_trans.
  destruct (p ?= q)%Q eqn:E1, (q ?= r)%Q eqn:E2, (p ?= r)%Q eqn:E3;
    try congruence; try apply str_lt_trans; qcompare_props; lra.
Qed.

Lemma key_lt_negtrans (a b c : num * string) :
  ordered_key a -> ordered_key b -> ordered_key c ->
  key_lt a b = false -> key_lt b c = false -> key_lt a c = false.
Proof.
  destruct a as [x s], b as [y t], c as [z u].
  unfold ordered_key, key_lt, num_eq, num_lt, is_nan. simpl.
  destruct (num_value x) as [| |p|], (num_value y) as [| |q|],
    (num_value z) as [| |r|]; simpl; try discriminate;
    intros _ _ _; try congruence; try apply str_lt_negtrans.
  destruct (p ?= q)%Q eqn:E1, (q ?= r)%Q eqn:E2, (p ?= r)%Q eqn:E3;
    try congruence; try apply str_lt_negtrans; qcompare_props; lra.
Qed.

Lemma item_sort_stable (l : list item) :
  Forall ordered_item l -> stable_sorted item_lt l (list_sort item_lt l).
Proof.
  apply list_sort_stable_sorted; unfold item_lt, ordered_item.
  - intros a Pa. apply key_lt_irrefl. exact Pa.
  - intros a b c Pa Pb Pc. apply key_lt_trans; assumption.
  - intros a b c Pa Pb Pc. apply key_lt_negtrans; assumption.
Qed.


Lemma member_sort_stable (l : list (string * string)) :
  stable_sorted member_lt l (list_sort member_lt l).
Proof.
  apply list_sort_stable_sorted with (P := fun _ => True); unfold member_lt.
  - intros a _. apply str_lt_irrefl.
  - intros a b c _ _ _. apply str_lt_trans.
  - intros a b c _ _ _. apply str_lt_negtrans.
  - apply List.Forall_forall. auto.
Qed.

(** The least of numbers none of which is a NaN. *)
Lemma num_lt_order :
  (forall a, is_nan a = false -> num_lt a a = false)
  /\ (forall a b c, is_nan a = false -> is_nan b = false -> is_nan c = false ->
        num_lt a b = true -> num_lt b c = true -> num_lt a c = true)
  /\ (forall a b c, is_nan a = false -> is_nan b = false -> is_nan c = false ->
        num_lt a b = false -> num_lt b c = false -> num_lt a c = false).
Proof.
  unfold num_lt, is_nan. repeat split.
  - intros a. destruct (num_value a) as [| |q|]; simpl; try congruence.
    intros _. destruct (q ?= q)%Q eqn:E; try reflexivity. qcompare_props. lra.
  - intros a b c.
    destruct (num_value a) as [| |p|], (num_value b) as [| |q|],
      (num_value c) as [| |r|]; simpl; try congruence.
    intros _ _ _.
    destruct (p ?= q)%Q eqn:E1, (q ?= r)%Q eqn:E2, (p ?= r)%Q eqn:E3;
      try congruence; qcompare_props; lra.
  - intros a b c.
    destruct (num_value a) as [| |p|], (num_value b) as [| |q|],
      (num_value c) as [| |r|]; simpl; try congruence.
    intros _ _ _.
    destruct (p ?= q)%Q eqn:E1, (q ?= r)%Q eqn:E2, (p ?= r)%Q eqn:E3;
      try congruence; qcompare_props; lra.
Qed.

(** * Grouping *)

Lemma mem_In (k : string) (l : list string) : mem k l = true <-> In k l.
Proof.
  unfold mem. rewrite existsb_exists. split.
  - intros (x & Hx & E). apply String.eqb_eq in E. subst. exact Hx.
  - intros H. exists k. split; [exact H|apply String.eqb_refl].
Qed.

Lemma first_seen_In (k : string) (l : list string) :
  In k (first_seen l) <-> In k l.
Proof.
  induction l as [|h l IH]; simpl; [tauto|].
  rewrite List.filter_In, IH, negb_true_iff, String.eqb_neq.
  destruct (String.eqb_spec k h) as [->|Hne]; [tauto|].
  split; [tauto|]. intros [E|H]; [congruence|tauto].
Qed.

Lemma first_seen_NoDup (l : list string) : List.NoDup (first_seen l).
Proof.
  induction l as [|h l IH]; simpl; constructor.
  - rewrite List.filter_In, String.eqb_refl. simpl. intros [_ H]. discriminate.
  - apply List.NoDup_filter. exact IH.
Qed.

Lemma first_seen_snoc (l : list string) (k : string) :
  first_seen (l ++ [k])
  = if mem k l then first_seen l else (first_seen l ++ [k])%list.
Proof.
  induction l as [|h l IH]; simpl; [reflexivity|].
  rewrite IH. destruct (mem k l).
  - rewrite orb_true_r. reflexivity.
  - rewrite orb_false_r, List.filter_app. simpl.
    destruct (String.eqb k h); simpl; [rewrite List.app_nil_r|]; reflexivity.
Qed.

Lemma items_of_snoc (k : string) (items : list item) (it : item) :
  items_of k (items ++ [it])
  = if String.eqb (category it) k then (items_of k items ++ [it])%list
    else items_of k items.
Proof.
  unfold items_of. rewrite List.filter_app. simpl.
  destruct (String.eqb (category it) k); [reflexivity|apply List.app_nil_r].
Qed.

Lemma items_of_absent (k : string) (items : list item) :
  ~ In k (map category items) -> items_of k items = [].
Proof.
  unfold items_of. induction items as [|x items IH]; simpl; intros H; [reflexivity|].
  destruct (String.eqb_spec (category x) k) as [E|_]; [tauto|].
  apply IH. tauto.
Qed.

Lemma setdefault_append_groups (items : list item) (it : item) (ks : list string) :
  List.NoDup ks ->
  setdefault_append (map (fun k => (k, items_of k items)) ks) (category it) it
  = if mem (category it) ks
    then map (fun k => (k, items_of k (items ++ [it]))) ks
    else (map (fun k => (k, items_of k (items ++ [it]))) ks
          ++ [(category it, [it])])%list.
Proof.
  induction 1 as [|k ks Hk Hks IH]; simpl; [reflexivity|].
  rewrite items_of_snoc.
  destruct (String.eqb_spec (category it) k) as [E|Hne]; simpl.
  - f_equal. apply map_ext_in. intros k' Hk'.
    rewrite items_of_snoc.
    destruct (String.eqb_spec (category it) k'); [congruence|reflexivity].
  - rewrite IH. destruct (mem (category it) ks); reflexivity.
Qed.

Lemma group_items_from (rest items : list item) :
  fold_left (fun grouped it => setdefault_append grouped (category it) it) rest
    (groups_of items)
  = groups_of (items ++ rest).
Proof.
  revert items. induction rest as [|it rest IH]; intros items; simpl.
  - rewrite List.app_nil_r. reflexivity.
  - replace (items ++ it :: rest)%list with ((items ++ [it]) ++ rest)%list
      by (rewrite <- List.app_assoc; reflexivity).
    rewrite <- IH. f_equal.
    unfold groups_of.
    rewrite setdefault_append_groups by apply first_seen_NoDup.
    rewrite List.map_app. simpl. rewrite first_seen_snoc.
    destruct (mem (category it) (first_seen (map category items))) eqn:E.
    + assert (E' : mem (category it) (map category items) = true).
      { apply mem_In. apply first_seen_In. apply mem_In. exact E. }
      rewrite E'. reflexivity.
    + assert (E' : mem (category it) (map category items) = false).
      { destruct (mem (category it) (map category items)) eqn:E2; [|reflexivity].
        rewrite <- E. symmetry. apply mem_In, first_seen_In, mem_In. exact E2. }
      rewrite E'. rewrite List.map_app. simpl. f_equal. f_equal. f_equal.
      rewrite items_of_snoc, String.eqb_refl.
      rewrite items_of_absent; [reflexivity|].
      intros H. apply mem_In in H. congruence.
Qed.

(** The groups are the categories in first-seen order, each holding its
    items in their order. *)
Lemma group_items_groups (items : list item) : group_items items = groups_of items.
Proof. exact (group_items_from items []). Qed.

Lemma group_nonempty (items : list item) (g : string * list item) :
  In g (group_items items) -> snd g <> [] /\ snd g = items_of (fst g) items.
Proof.
  rewrite group_items_groups. unfold groups_of. rewrite in_map_iff.
  intros (k & <- & Hk). simpl. split; [|reflexivity].
  rewrite first_seen_In in Hk. apply in_map_iff in Hk.
  destruct Hk as (x & Hx & Hin).
  assert (H : In x (items_of k items)).
  { unfold items_of. apply List.filter_In. split; [exact Hin|].
    apply String.eqb_eq. exact Hx. }
  intros E. rewrite E in H. exact H.
Qed.





Lemma ordered_items_of (k : string) (items : list item) :
  Forall ordered_item items -> Forall ordered_item (items_of k items).
Proof.
  rewrite !List.Forall_forall. unfold items_of. intros H x Hx.
  apply List.filter_In in Hx. apply H. tauto.
Qed.

(** [min] over a list that is not empty. *)
Lemma py_min_num (d : num) (l : list num) :
  l <> [] -> Forall (fun x => is_nan x = false) l ->
  In (py_min num_lt d l) l /\ Forall (fun y => num_lt y (py_min num_lt d l) = false) l.
Proof.
  destruct l as [|x l]; [congruence|]. intros _ Pl.
  destruct num_lt_order as (Hi & Ht & Hn).
  apply (py_min_least num_lt (fun x => is_nan x = false) Hi Ht Hn d x l Pl).
Qed.

Lemma make_category_ordered (g : string * list item) :
  Forall ordered_item (snd g) -> ordered_category (make_category g).
Proof.
  intros Pg. unfold ordered_category, make_category. simpl.
  set (l := list_sort item_lt (snd g)).
  assert (Pl : Forall (fun x => is_nan x = false) (map sort l)).
  { rewrite List.Forall_forall in *. intros n Hn.
    apply in_map_iff in Hn. destruct Hn as (x & <- & Hx).
    apply Pg. eapply Permutation_in; [apply list_sort_perm|exact Hx]. }
  destruct (map sort l) as [|n ns] eqn:E; [reflexivity|].
  assert (Hne : n :: ns <> []) by congruence.
  destruct (py_min_num (Int 0) (n :: ns) Hne Pl) as [Hin _].
  rewrite List.Forall_forall in Pl. apply Pl. exact Hin.
Qed.

(** A built category is made from the items that carry its name. *)
Lemma build_categories_member (items : list item) (c : category_entry) :
  In c (build_categories items) ->
  c = make_category (cat_name c, items_of (cat_name c) items).
Proof.
  intros Hc.
  assert (Hc' : In c (map make_category (group_items items))).
  { eapply Permutation_in; [apply list_sort_perm|exact Hc]. }
  apply in_map_iff in Hc'. destruct Hc' as ([k l] & <- & Hg).
  destruct (group_nonempty items (k, l) Hg) as [_ El]. simpl in El. subst l.
  reflexivity.
Qed.

(** * Texts *)

Lemma string_length_append (s t : string) :
  String.length (String.append s t) = (String.length s + String.length t)%nat.
Proof. induction s as [|c s IH]; simpl; [reflexivity|]. rewrite IH. reflexivity. Qed.

Lemma string_forallb_append (p : ascii -> bool) (s t : string) :
  string_forallb p (String.append s t) = string_forallb p s && string_forallb p t.
Proof.
  induction s as [|c s IH]; simpl; [reflexivity|].
  rewrite IH. apply andb_assoc.
Qed.

Lemma code_chr (z : Z) : 0 <= z < 256 -> code (chr z) = z.
Proof.
  intros H. unfold code, chr.
  rewrite N_ascii_embedding by lia. lia.
Qed.





Lemma lskip_head (p : ascii -> bool) (s : string) :
  match lskip p s with
  | EmptyString => True
  | String c _ => p c = false
  end.
Proof.
  induction s as [|c s IH]; simpl; [exact I|].
  destruct (p c) eqn:Hc; [exact IH|exact Hc].
Qed.

(** * The digest is 64 hexadecimal digits *)

Lemma hex_digit_lower (d : Z) : 0 <= d < 16 -> is_lower_hex (hex_digit d) = true.
Proof.
  intros H. unfold is_lower_hex, is_digit, hex_digit.
  destruct (Z.ltb_spec d 10); rewrite code_chr by lia.
  - replace (48 <=? 48 + d) with true by (symmetry; apply Z.leb_le; lia).
    replace (48 + d <=? 57) with true by (symmetry; apply Z.leb_le; lia).
    reflexivity.
  - replace (97 <=? 87 + d) with true by (symmetry; apply Z.leb_le; lia).
    replace (87 + d <=? 102) with true by (symmetry; apply Z.leb_le; lia).
    apply orb_true_r.
Qed.

Lemma hex_fixed_digest (n : nat) : forall z,
  String.length (hex_fixed n z) = n
  /\ string_forallb is_lower_hex (hex_fixed n z) = true.
Proof.
  induction n as [|n IH]; intros z; simpl; [auto|].
  destruct (IH (z / 16)) as [Hl Hh].
  rewrite string_length_append, string_forallb_append, Hl, Hh. simpl.
  rewrite hex_digit_lower by (apply Z.mod_pos_bound; lia).
  split; [lia|reflexivity].
Qed.

Lemma round_length (st : list Z) (kw : Z * Z) :
  length (Sha256.round st kw) = length st.
Proof.
  unfold Sha256.round.
  do 9 (destruct st as [|? st]; [reflexivity|]). reflexivity.
Qed.

Lemma compress_length (h block : list Z) :
  length (Sha256.compress h block) = length h.
Proof.
  unfold Sha256.compress.
  rewrite List.length_map, List.length_combine.
  assert (H : forall l st, length (fold_left Sha256.round l st) = length st).
  { induction l as [|kw l IH]; intros st; simpl; [reflexivity|].
    rewrite IH. apply round_length. }
  rewrite H. apply Nat.min_id.
Qed.

Lemma digest_length (msg : list Z) : length (Sha256.digest msg) = 8%nat.
Proof.
  unfold Sha256.digest.
  assert (H : forall bs h, length (fold_left Sha256.compress bs h) = length h).
  { induction bs as [|b bs IH]; intros h; simpl; [reflexivity|].
    rewrite IH. apply compress_length. }
  rewrite H. reflexivity.
Qed.

Lemma hex_words_digest (ws : list Z) :
  String.length (Sha256.hex_words ws) = (8 * length ws)%nat
  /\ string_forallb is_lower_hex (Sha256.hex_words ws) = true.
Proof.
  induction ws as [|w ws [Hl Hh]]; [auto|].
  cbn [Sha256.hex_words length].
  destruct (hex_fixed_digest 8 w) as [Hl8 Hh8].
  rewrite string_length_append, string_forallb_append, Hl, Hh, Hl8, Hh8.
  split; [lia|reflexivity].
Qed.

Lemma hexdigest_hex (s : string) : is_hex_digest (Sha256.hexdigest s).
Proof.
  unfold is_hex_digest, Sha256.hexdigest.
  destruct (hex_words_digest (Sha256.digest (Sha256.bytes_of s))) as [Hl Hh].
  rewrite Hl, Hh, digest_length. auto.
Qed.

(** * The output writer *)

Lemma load_existing_hash_prior (OUT_DIR : path) (w : world) :
  load_existing_hash OUT_DIR w = (Ok (prior_fingerprint OUT_DIR w), w).
Proof.
  unfold load_existing_hash, prior_fingerprint, path_exists, read_json.
  destruct (files w !! LATEST_PATH OUT_DIR) as [[| |j]|] eqn:E; simpl;
    try reflexivity.
  - destruct j; reflexivity.
  - destruct (bool_decide (LATEST_PATH OUT_DIR ∈ dirs w)); reflexivity.
Qed.

Lemma py_eq_str (old : json) (h : string) :
  py_eq old (JStr h) = true <-> old = JStr h.
Proof.
  destruct old; simpl; try (split; [discriminate|congruence]).
  rewrite String.eqb_eq. split; congruence.
Qed.

Lemma self_ancestor (p : path) : p ∈ (list_to_set (ancestors p) : gset path).
Proof.
  apply elem_of_list_to_set. unfold ancestors.
  apply list_elem_of_In, in_map_iff. exists (length p). split.
  - apply firstn_all.
  - apply in_seq. lia.
Qed.

Lemma made_dirs_spec (OUT_DIR : path) (w : world) :
  OUT_DIR ∈ made_dirs OUT_DIR w
  /\ SNAP_DIR OUT_DIR ∈ made_dirs OUT_DIR w
  /\ dirs w ⊆ made_dirs OUT_DIR w.
Proof.
  unfold made_dirs. repeat split.
  - apply elem_of_union_l, elem_of_union_r, self_ancestor.
  - apply elem_of_union_r, self_ancestor.
  - intros p Hp. apply elem_of_union_l, elem_of_union_l, Hp.
Qed.

Lemma write_outputs_run (OUT_DIR : path) (now : datetime) (menu h : json) (w : world) :
  getitem menu "hash" = Ok h ->
  write_outputs OUT_DIR now menu w
  = if py_eq (prior_fingerprint OUT_DIR w) h
    then (Ok false,
          {| dirs := made_dirs OUT_DIR w;
             files := files w;
             stdout := (stdout w ++ ["No change. (latest.json unchanged)"])%list |})
    else (Ok true,
          {| dirs := made_dirs OUT_DIR w;
             files := <[snapshot_path OUT_DIR now := Document menu]>
                        (<[LATEST_PATH OUT_DIR := Document menu]> (files w));
             stdout := (stdout w ++
                          [String.append "Wrote latest.json and snapshot: "
                             (path_str (snapshot_path OUT_DIR now))])%list |}).
Proof.
  intros Hh. unfold write_outputs, io_bind, mkdir, io_lift.
  rewrite load_existing_hash_prior, Hh.
  unfold prior_fingerprint at 1. cbn [files].
  fold (prior_fingerprint OUT_DIR w).
  destruct (py_eq (prior_fingerprint OUT_DIR w) h); reflexivity.
Qed.

Lemma write_outputs_raise (OUT_DIR : path) (now : datetime) (menu : json)
    (e : exn) (w : world) :
  getitem menu "hash" = Raise e ->
  write_outputs OUT_DIR now menu w
  = (Raise e, {| dirs := made_dirs OUT_DIR w; files := files w; stdout := stdout w |}).
Proof.
  intros Hh. unfold write_outputs, io_bind, mkdir, io_lift.
  rewrite load_existing_hash_prior, Hh. reflexivity.
Qed.

(** * [build_menu] *)

Lemma build_menu_ok (now : datetime) (rows : list row) :
  validate_headers rows = Ok tt ->
  let cats := map emit_category (build_categories (accepted_items rows)) in
  build_menu now rows
  = Ok (JDict [("generated_at", JStr (isoformat now));
               ("categories", JList cats);
               ("hash", JStr (stable_hash
                                (JDict [("generated_at", JStr (isoformat now));
                                        ("categories", JList cats)])))]).
Proof.
  intros Hv cats. unfold build_menu.
  rewrite Hv, collect_items_accepted. cbn [exc_bind].
  fold cats. unfold unhashed_menu.
  generalize (stable_hash
                (JDict [("generated_at", JStr (isoformat now));
                        ("categories", JList cats)])).
  intros h. reflexivity.
Qed.

Lemma build_menu_raise (now : datetime) (rows : list row) (e : exn) :
  validate_headers rows = Raise e -> build_menu now rows = Raise e.
Proof. intros Hv. unfold build_menu. rewrite Hv. reflexivity. Qed.

Lemma validate_headers_cases (rows : list row) :
  validate_headers rows = Ok tt
  \/ exists r rows', rows = r :: rows' /\ missing_headers r <> []
       /\ validate_headers rows
          = Raise (RuntimeError (schema_message (missing_headers r))).
Proof.
  destruct rows as [|r rows']; [left; reflexivity|].
  simpl. destruct (missing_headers r) as [|h m] eqn:E; [left; reflexivity|].
  right. exists r, rows'. rewrite E. repeat split. discriminate.
Qed.

Lemma missing_headers_In (r : row) (h : string) :
  In h (missing_headers r) <-> In h REQUIRED_HEADERS /\ ~ In h (keys r).
Proof.
  unfold missing_headers. rewrite List.filter_In, negb_true_iff.
  pose proof (mem_In h (keys r)) as Hm.
  destruct (mem h (keys r)); intuition congruence.
Qed.

Lemma emit_item_object (x : item) : item_object (emit_item x).
Proof. unfold item_object, emit_item. eauto 6. Qed.

Lemma emit_category_object (c : category_entry) : category_object (emit_category c).
Proof.
  unfold category_object, emit_category.
  exists (cat_name c), (cat_sort c), (map emit_item (cat_items c)).
  split; [reflexivity|].
  apply List.Forall_forall. intros j Hj.
  apply in_map_iff in Hj. destruct Hj as (x & <- & _). apply emit_item_object.
Qed.

(** * [norm_bool] *)


Lemma build_menu_returns (now : datetime) (rows : list row) (menu : json) :
  build_menu now rows = Ok menu ->
  exists d h,
    menu = JDict d /\ dict_lookup d "hash" = Some (JStr h) /\ is_hex_digest h.
Proof.
  intros Hb.
  destruct (validate_headers_cases rows) as [Hv|(r & rows' & _ & _ & Hv)].
  - rewrite (build_menu_ok now rows Hv) in Hb. inversion Hb.
    eexists. eexists. split; [reflexivity|].
    split; [reflexivity|apply hexdigest_hex].
  - rewrite (build_menu_raise now rows _ Hv) in Hb. discriminate.
Qed.

(** * Checking that cells are plain *)

Lemma plain_row_check (r : row) :
  forallb (fun kv => plain_cellb (snd kv)) r = true -> plain_row r.
Proof.
  intros H. apply List.Forall_forall. intros kv Hkv.
  rewrite forallb_forall in H. exact (H kv Hkv).
Qed.

Lemma plain_rows_check (rows : list row) :
  forallb (forallb (fun kv => plain_cellb (snd kv))) rows = true ->
  Forall plain_row rows.
Proof.
  intros H. apply List.Forall_forall. intros r Hr.
  rewrite forallb_forall in H. apply plain_row_check, H, Hr.
Qed.

(** * The claims of the specification *)

(** C1 (the code departs from it).  The claim: the fingerprint does not
    depend on [generated_at], so two documents built from the same rows at
    different times have the same hash.  The code hashes the document with
    [generated_at] in it: the same rows built one second apart give equal
    categories and different fingerprints. *)
Theorem C1_fingerprint_changes_with_generated_at :
  exists h1 h2,
    (do m <- build_menu sample_time tea_rows; getitem m "hash") = Ok (JStr h1)
    /\ (do m <- build_menu later_time tea_rows; getitem m "hash") = Ok (JStr h2)
    /\ (do m <- build_menu sample_time tea_rows; getitem m "categories")
       = (do m <- build_menu later_time tea_rows; getitem m "categories")
    /\ String.eqb h1 h2 = false.
Proof.
  exists "cafbea78706504d1c1b92b847066a2d549bd1c7941eb5709eb1591c10ea6c696",
         "b0f41d1868a9cdd1d17ea1cf568aa56cc616b899c15c65af570c5def26e96efb".
  split; [vm_compute; reflexivity|].
  split; [vm_compute; reflexivity|].
  split; vm_compute; reflexivity.
Qed.

(** C2.  [stable_hash] is the SHA-256 digest, as 64 hexadecimal digits, of
    the canonical serialization: the members of an object sorted by key,
    no white space around the separators, the bytes of a text kept as they
    are apart from the JSON escapes.  The digest is the one of the
    standard (its value on [abc]), and the fingerprint of a sample
    object and of the document of no rows are the values [hashlib]
    gives.  [build_menu] applies it to the document that holds
    [generated_at] and [categories], and attaches the result as [hash]
    afterwards: the build either raises what the header validation
    raises or returns that document. *)
Theorem C2_stable_hash_canonical_digest
    (obj : json) (d : list (string * json)) (l : list json)
    (now : datetime) (rows : list row) :
  stable_hash obj = Sha256.hexdigest (dumps obj)
  /\ is_hex_digest (stable_hash obj)
  /\ (exists members,
        dumps (JDict d)
        = String.append "{"
            (String.append (join "," (map dumps_member members)) "}")
        /\ stable_sorted member_lt
             (map (fun kv => (fst kv, dumps (snd kv))) d) members)
  /\ dumps (JList l)
     = String.append "[" (String.append (join "," (map dumps l)) "]")
  /\ (forall c, 32 <= code c -> code c <> 34 -> code c <> 92 ->
        escape_char c = String c EmptyString)
  /\ Sha256.bytes_of
       (dumps (JDict [("b", JList [JNum (Int 1); JBool true]); ("a", JNull)]))
     = [123; 34; 97; 34; 58; 110; 117; 108; 108; 44;
        34; 98; 34; 58; 91; 49; 44; 116; 114; 117; 101; 93; 125]
  /\ Sha256.hexdigest "abc"
     = "ba7816bf8f01cfea414140de5dae2223b00361a396177a9cb410ff61f20015ad"
  /\ stable_hash (JDict [("b", JList [JNum (Int 1); JBool true]); ("a", JNull)])
     = "1bd5b9d0d555855389559153dc475fbc338f886ad2a67b4bb28102bf881177bf"
  /\ build_menu sample_time []
     = Ok (JDict [("generated_at", JStr "2024-01-15T14:30:00+00:00");
                  ("categories", JList []);
                  ("hash",
                   JStr "f5c6697bbfa9f548cbae1a05467d8535f43566730a545829d1af6b1b2b6c2e8c")])
  /\ match build_menu now rows with
     | Ok menu =>
         exists cats,
           menu = JDict [("generated_at", JStr (isoformat now));
                         ("categories", JList cats);
                         ("hash",
                          JStr (stable_hash
                                  (JDict [("generated_at", JStr (isoformat now));
                                          ("categories", JList cats)])))]
     | Raise e => validate_headers rows = Raise e
     end.
Proof.
  split; [reflexivity|].
  split; [apply hexdigest_hex|].
  split.
  { exists (list_sort member_lt (map (fun kv => (fst kv, dumps (snd kv))) d)).
    split; [|apply member_sort_stable].
    assert (E : map (fun '(k, v) => (k, dumps v)) d
                = map (fun kv => (fst kv, dumps (snd kv))) d)
      by (apply map_ext; intros [k v]; reflexivity).
    rewrite <- E. reflexivity. }
  split; [reflexivity|].
  split.
  { intros c H32 H34 H92. unfold escape_char.
    repeat match goal with
           | |- context [?a =? ?b] =>
               destruct (Z.eqb_spec a b); [lia|]
           end.
    destruct (Z.ltb_spec (code c) 32); [lia|reflexivity]. }
  split; [vm_compute; reflexivity|].
  split; [vm_compute; reflexivity|].
  split; [vm_compute; reflexivity|].
  split; [vm_compute; reflexivity|].
  destruct (validate_headers_cases rows) as [Hv|(r & rows' & _ & _ & Hv)].
  - rewrite (build_menu_ok now rows Hv). eexists. reflexivity.
  - rewrite (build_menu_raise now rows _ Hv). exact Hv.
Qed.

(** C3, as the code has it.  The build of rows whose headers are complete
    returns a document whose categories are objects with [name], [sort]
    (a number) and [items], and every item object has exactly the four
    text fields [name], [description], [price_display] and [image_url]:
    the [sort] of an item orders it and is not emitted. *)
Theorem C3_emitted_item_fields (now : datetime) (rows : list row) :
  validate_headers rows = Ok tt ->
  exists menu cats,
    build_menu now rows = Ok menu
    /\ getitem menu "categories" = Ok (JList cats)
    /\ Forall category_object cats.
Proof.
  intros Hv. pose proof (build_menu_ok now rows Hv) as Hb. cbv zeta in Hb.
  eexists. eexists. split; [exact Hb|].
  split; [reflexivity|].
  apply List.Forall_forall. intros j Hj.
  apply in_map_iff in Hj. destruct Hj as (c & <- & _).
  apply emit_category_object.
Qed.

Lemma C3_emitted_item_fields_witness :
  validate_headers tea_rows = Ok tt
  /\ exists menu cats,
       build_menu sample_time tea_rows = Ok menu
       /\ getitem menu "categories" = Ok (JList cats)
       /\ Forall category_object cats.
Proof.
  split; [reflexivity|].
  apply (C3_emitted_item_fields sample_time tea_rows). reflexivity.
Defined.

(** C3 as stated fails: the item emitted for the one row of [tea_rows]
    has no [sort] field. *)
Lemma C3_counterexample :
  exists menu c it,
    build_menu sample_time tea_rows = Ok menu
    /\ getitem menu "categories" = Ok (JList [c])
    /\ getitem c "items" = Ok (JList [it])
    /\ getitem it "sort" = Raise (KeyError "sort").
Proof.
  pose proof (build_menu_ok sample_time tea_rows eq_refl) as Hb. cbv zeta in Hb.
  assert (E : map emit_category (build_categories (accepted_items tea_rows))
              = [emit_category {| cat_name := "Drinks";
                                  cat_sort := sort tea_item;
                                  cat_items := [tea_item] |}])
    by (vm_compute; reflexivity).
  rewrite E in Hb.
  eexists. exists (emit_category {| cat_name := "Drinks";
                                     cat_sort := sort tea_item;
                                     cat_items := [tea_item] |}), (emit_item tea_item).
  split; [exact Hb|].
  repeat split.
Qed.






(** C6 as stated fails when a snapshot of the same second is there
    already: the run writes (it returns [True]), the set of files stays
    what it was, and the snapshot that was there is overwritten. *)
Lemma C6_counterexample :
  exists w',
    write_outputs sample_out sample_time new_document crowded_world = (Ok true, w')
    /\ dom (files w') = dom (files crowded_world)
    /\ files crowded_world !! snapshot_path sample_out sample_time
       = Some (Document old_document)
    /\ files w' !! snapshot_path sample_out sample_time
       = Some (Document new_document).
Proof.
  rewrite (write_outputs_run sample_out sample_time new_document (JStr "0b"))
    by reflexivity.
  assert (E : py_eq (prior_fingerprint sample_out crowded_world) (JStr "0b") = false)
    by (vm_compute; reflexivity).
  rewrite E. eexists. split; [reflexivity|].
  cbn [files crowded_world].
  split; [|split; [apply lookup_insert_eq|apply lookup_insert_eq]].
  rewrite dom_insert_lookup_L.
  - apply dom_insert_lookup_L.
    rewrite lookup_insert_ne by discriminate. rewrite lookup_insert_eq. eauto.
  - rewrite lookup_insert_ne by discriminate. rewrite lookup_insert_eq. eauto.
Qed.

(** C6, as the code has it.  Reading the prior fingerprint never fails and
    changes nothing: a missing, unreadable or malformed latest-state file
    gives [None].  When the prior fingerprint is the hash of the new
    document, [write_outputs] writes no file, prints the no-change line
    and returns [False].  Otherwise (a prior fingerprint that differs, or
    none) it returns [True] after writing the document to the
    latest-state file and to the snapshot file named by the current
    second, every other file staying as it was; the snapshot is a new
    file when no file of that name was there, and replaces it
    otherwise. *)
Theorem C6_write_outputs
    (OUT_DIR : path) (now : datetime) (menu : json) (h : string) (w : world) :
  getitem menu "hash" = Ok (JStr h) ->
  let old := prior_fingerprint OUT_DIR w in
  let snap := snapshot_path OUT_DIR now in
  load_existing_hash OUT_DIR w = (Ok old, w)
  /\ (files w !! LATEST_PATH OUT_DIR = None
      \/ files w !! LATEST_PATH OUT_DIR = Some Unreadable
      \/ files w !! LATEST_PATH OUT_DIR = Some Malformed ->
      old = JNull)
  /\ (old = JStr h ->
      exists w',
        write_outputs OUT_DIR now menu w = (Ok false, w')
        /\ files w' = files w
        /\ stdout w'
           = (stdout w ++ ["No change. (latest.json unchanged)"])%list)
  /\ (old <> JStr h ->
      exists w',
        write_outputs OUT_DIR now menu w = (Ok true, w')
        /\ files w' !! LATEST_PATH OUT_DIR = Some (Document menu)
        /\ files w' !! snap = Some (Document menu)
        /\ (forall p, p <> LATEST_PATH OUT_DIR -> p <> snap ->
              files w' !! p = files w !! p)
        /\ (files w !! snap = None ->
            dom (files w') = {[snap]} ∪ ({[LATEST_PATH OUT_DIR]} ∪ dom (files w))
            /\ snap ∉ dom (files w))).
Proof.
  intros Hh old snap.
  split; [apply load_existing_hash_prior|].
  split.
  { unfold old, prior_fingerprint. intros [E|[E|E]]; rewrite E; reflexivity. }
  rewrite (write_outputs_run OUT_DIR now menu (JStr h) w Hh). fold old.
  split.
  - intros E. apply py_eq_str in E. rewrite E. eexists. repeat split.
  - intros Hne.
    destruct (py_eq old (JStr h)) eqn:E; [apply py_eq_str in E; contradiction|].
    assert (Hsl : snap <> LATEST_PATH OUT_DIR).
    { unfold snap, snapshot_path, SNAP_DIR, LATEST_PATH. intros Heq.
      apply (f_equal (@length string)) in Heq.
      rewrite !List.length_app in Heq. simpl in Heq. lia. }
    eexists. split; [reflexivity|]. cbn [files]. fold snap.
    split; [rewrite lookup_insert_ne by exact Hsl; apply lookup_insert_eq|].
    split; [apply lookup_insert_eq|].
    split.
    + intros p Hp Hs. rewrite !lookup_insert_ne by congruence. reflexivity.
    + intros Hnone. split; [rewrite !dom_insert_L; reflexivity|].
      apply not_elem_of_dom. exact Hnone.
Qed.

Lemma C6_write_outputs_witness :
  getitem new_document "hash" = Ok (JStr "0b")
  /\ load_existing_hash sample_out crowded_world
     = (Ok (prior_fingerprint sample_out crowded_world), crowded_world).
Proof.
  split; [reflexivity|].
  apply (C6_write_outputs sample_out sample_time new_document "0b" crowded_world).
  reflexivity.
Defined.

(** C7.  [validate_headers] accepts the empty sequence of rows, and a
    sequence whose first row has every required column whatever the other
    rows hold.  When the first row lacks required columns it raises a
    [RuntimeError] whose message lists exactly the missing ones, in the
    order of [REQUIRED_HEADERS], and then the whole expected list; the
    build raises the same error before any row is normalized.  For a row
    without [price] and [sort] the message reads as Python prints it.
    The build of no rows returns a document with no category and a hash
    of 64 hexadecimal digits, the one [hashlib] gives. *)
Theorem C7_header_validation (now : datetime) (r : row) (rows : list row) :
  validate_headers [] = Ok tt
  /\ (missing_headers r = [] -> validate_headers (r :: rows) = Ok tt)
  /\ (missing_headers r <> [] ->
      validate_headers (r :: rows)
      = Raise (RuntimeError (schema_message (missing_headers r)))
      /\ build_menu now (r :: rows)
         = Raise (RuntimeError (schema_message (missing_headers r))))
  /\ (forall h, In h (missing_headers r)
                <-> In h REQUIRED_HEADERS /\ ~ In h (keys r))
  /\ schema_message (missing_headers r)
     = String.append "Your sheet is missing columns: "
         (String.append (repr_names (missing_headers r))
            (String.append newline
               (String.append "Expected headers: " (repr_names REQUIRED_HEADERS))))
  /\ missing_headers priceless_row = ["price"]
  /\ repr_names (missing_headers priceless_row) = "['price']"
  /\ missing_headers bare_row = ["price"; "sort"]
  /\ missing_headers [] = REQUIRED_HEADERS
  /\ validate_headers (bare_row :: rows)
     = Raise (RuntimeError
                (String.append
                   "Your sheet is missing columns: ['price', 'sort']"
                   (String "010"%char
                      "Expected headers: ['category', 'item', 'price', 'description', 'available', 'sort', 'image_url']")))
  /\ build_menu now (bare_row :: rows)
     = Raise (RuntimeError
                (String.append
                   "Your sheet is missing columns: ['price', 'sort']"
                   (String "010"%char
                      "Expected headers: ['category', 'item', 'price', 'description', 'available', 'sort', 'image_url']")))
  /\ validate_headers (menu_row "Drinks" "Tea" (PStr "1") (PNum (Int 1))
                        :: bare_row :: rows) = Ok tt
  /\ (exists h,
        build_menu now []
        = Ok (JDict [("generated_at", JStr (isoformat now));
                     ("categories", JList []);
                     ("hash", JStr h)])
        /\ is_hex_digest h)
  /\ build_menu sample_time []
     = Ok (JDict [("generated_at", JStr "2024-01-15T14:30:00+00:00");
                  ("categories", JList []);
                  ("hash",
                   JStr "f5c6697bbfa9f548cbae1a05467d8535f43566730a545829d1af6b1b2b6c2e8c")]).
Proof.
  split; [reflexivity|].
  split; [intros E; simpl; rewrite E; reflexivity|].
  split.
  { intros Hne.
    assert (Hv : validate_headers (r :: rows)
                 = Raise (RuntimeError (schema_message (missing_headers r)))).
    { simpl. destruct (missing_headers r); [contradiction|reflexivity]. }
    split; [exact Hv|]. apply build_menu_raise. exact Hv. }
  split; [apply missing_headers_In|].
  split; [reflexivity|].
  split; [reflexivity|].
  split; [reflexivity|].
  split; [reflexivity|].
  split; [reflexivity|].
  assert (Hv : validate_headers (bare_row :: rows)
     = Raise (RuntimeError
                (String.append
                   "Your sheet is missing columns: ['price', 'sort']"
                   (String "010"%char
                      "Expected headers: ['category', 'item', 'price', 'description', 'available', 'sort', 'image_url']"))))
    by (vm_compute; reflexivity).
  split; [exact Hv|].
  split; [apply build_menu_raise; exact Hv|].
  split; [reflexivity|].
  split.
  { eexists. split; [apply (build_menu_ok now [] eq_refl)|].
    apply hexdigest_hex. }
  vm_compute. reflexivity.
Qed.






(** C10.  [write_outputs] creates the output directory and the snapshots
    directory first: whatever the run then does (a no-op that returns
    [False], a write that returns [True], or the [KeyError] of a document
    without [hash]), both directories are there afterwards and no
    directory was removed; on the no-op the files are what they were. *)
Theorem C10_directories_created
    (OUT_DIR : path) (now : datetime) (menu : json) (w : world) :
  exists res w',
    write_outputs OUT_DIR now menu w = (res, w')
    /\ OUT_DIR ∈ dirs w'
    /\ SNAP_DIR OUT_DIR ∈ dirs w'
    /\ dirs w ⊆ dirs w'
    /\ (res = Ok false -> files w' = files w).
Proof.
  destruct (made_dirs_spec OUT_DIR w) as (H1 & H2 & H3).
  destruct (getitem menu "hash") as [h|e] eqn:Hh.
  - rewrite (write_outputs_run OUT_DIR now menu h w Hh).
    destruct (py_eq (prior_fingerprint OUT_DIR w) h);
      eexists; eexists; (split; [reflexivity|]); cbn [dirs files];
      repeat split; auto; discriminate.
  - rewrite (write_outputs_raise OUT_DIR now menu e w Hh).
    eexists; eexists; (split; [reflexivity|]); cbn [dirs files];
      repeat split; auto.
Qed.

(** * Further properties of the exporter *)

(** ** The output writer and [main] *)

Lemma prior_fingerprint_files (OUT_DIR : path) (w w' : world) :
  files w' = files w -> prior_fingerprint OUT_DIR w' = prior_fingerprint OUT_DIR w.
Proof. unfold prior_fingerprint. intros ->. reflexivity. Qed.

Lemma snapshot_not_latest (OUT_DIR : path) (now : datetime) :
  snapshot_path OUT_DIR now <> LATEST_PATH OUT_DIR.
Proof.
  unfold snapshot_path, SNAP_DIR, LATEST_PATH. intros Heq.
  apply (f_equal (@length string)) in Heq.
  rewrite !List.length_app in Heq. simpl in Heq. lia.
Qed.

Lemma write_outputs_publishes
    (OUT_DIR : path) (now : datetime) (d : list (string * json)) (h : string)
    (w : world) :
  dict_lookup d "hash" = Some (JStr h) ->
  exists b w1,
    write_outputs OUT_DIR now (JDict d) w = (Ok b, w1)
    /\ prior_fingerprint OUT_DIR w1 = JStr h.
Proof.
  intros Hd.
  assert (Hh : getitem (JDict d) "hash" = Ok (JStr h)) by (simpl; rewrite Hd; reflexivity).
  rewrite (write_outputs_run OUT_DIR now (JDict d) (JStr h) w Hh).
  destruct (py_eq (prior_fingerprint OUT_DIR w) (JStr h)) eqn:E.
  - apply py_eq_str in E. exists false. eexists. split; [reflexivity|].
    unfold prior_fingerprint. cbn [files]. exact E.
  - exists true. eexists. split; [reflexivity|].
    unfold prior_fingerprint. cbn [files].
    rewrite lookup_insert_ne by apply snapshot_not_latest.
    rewrite lookup_insert_eq. unfold get. rewrite Hd. reflexivity.
Qed.

Lemma write_outputs_noop
    (OUT_DIR : path) (now : datetime) (menu : json) (h : string) (w : world) :
  getitem menu "hash" = Ok (JStr h) ->
  prior_fingerprint OUT_DIR w = JStr h ->
  exists w',
    write_outputs OUT_DIR now menu w = (Ok false, w') /\ files w' = files w.
Proof.
  intros Hh Hp.
  rewrite (write_outputs_run OUT_DIR now menu (JStr h) w Hh), Hp.
  assert (E : py_eq (JStr h) (JStr h) = true) by (apply py_eq_str; reflexivity).
  rewrite E. eexists. split; reflexivity.
Qed.

Lemma crowded_world_writable (now : datetime) :
  writable sample_out now crowded_world.
Proof.
  split; [|split; apply not_elem_of_empty].
  unfold SNAP_DIR, sample_out, ancestors. simpl.
  repeat (apply List.Forall_cons; [vm_compute; reflexivity|]).
  apply List.Forall_nil.
Qed.

(** X1.  Writing is idempotent.  Whatever the store holds, once
    [write_outputs] has run on a document whose [hash] is a text, the
    latest-state file carries that fingerprint ([load_existing_hash] reads
    it back), and a second run on the same document, at any time, is a
    no-op: it returns [False] and leaves every file as it is. *)
Theorem X1_write_outputs_idempotent
    (OUT_DIR : path) (t1 t2 : datetime) (d : list (string * json)) (h : string)
    (w : world) :
  dict_lookup d "hash" = Some (JStr h) ->
  exists b w1 w2,
    write_outputs OUT_DIR t1 (JDict d) w = (Ok b, w1)
    /\ load_existing_hash OUT_DIR w1 = (Ok (JStr h), w1)
    /\ write_outputs OUT_DIR t2 (JDict d) w1 = (Ok false, w2)
    /\ files w2 = files w1.
Proof.
  intros Hd.
  assert (Hh : getitem (JDict d) "hash" = Ok (JStr h)) by (simpl; rewrite Hd; reflexivity).
  destruct (write_outputs_publishes OUT_DIR t1 d h w Hd) as (b & w1 & H1 & Hp).
  destruct (write_outputs_noop OUT_DIR t2 (JDict d) h w1 Hh Hp) as (w2 & H2 & Hf).
  exists b, w1, w2.
  split; [exact H1|].
  split; [rewrite load_existing_hash_prior, Hp; reflexivity|].
  split; [exact H2|exact Hf].
Qed.

Lemma X1_write_outputs_idempotent_witness :
  dict_lookup [("hash", JStr "0b")] "hash" = Some (JStr "0b")
  /\ exists b w1 w2,
       write_outputs sample_out sample_time new_document crowded_world = (Ok b, w1)
       /\ load_existing_hash sample_out w1 = (Ok (JStr "0b"), w1)
       /\ write_outputs sample_out later_time new_document w1 = (Ok false, w2)
       /\ files w2 = files w1.
Proof.
  split; [reflexivity|].
  apply (X1_write_outputs_idempotent sample_out sample_time later_time
           [("hash", JStr "0b")] "0b" crowded_world).
  reflexivity.
Defined.

(** X2.  A sheet whose first row lacks a required column makes [main] raise
    the schema error before it touches anything: no directory is created,
    no file written, nothing printed. *)
Theorem X2_main_schema_error_leaves_store
    (OUT_DIR : path) (r : row) (rows : list row) (built written : datetime)
    (w : world) :
  missing_headers r <> [] ->
  main OUT_DIR (r :: rows) built written w
  = (Raise (RuntimeError (schema_message (missing_headers r))), w).
Proof.
  intros Hne. unfold main, io_bind, io_lift.
  rewrite (build_menu_raise built (r :: rows)
             (RuntimeError (schema_message (missing_headers r)))); [reflexivity|].
  simpl. destruct (missing_headers r); [contradiction|reflexivity].
Qed.

Lemma X2_main_schema_error_leaves_store_witness :
  missing_headers priceless_row <> []
  /\ main sample_out [priceless_row] sample_time sample_time crowded_world
     = (Raise (RuntimeError (schema_message (missing_headers priceless_row))),
        crowded_world).
Proof.
  assert (H : missing_headers priceless_row <> []) by (vm_compute; discriminate).
  split; [exact H|].
  apply (X2_main_schema_error_leaves_store sample_out priceless_row []
           sample_time sample_time crowded_world H).
Defined.

(** X3.  When the build returns a document, [main] on a writable store
    returns normally, and whether it wrote or not the store then has both
    directories and a latest-state file that carries the fingerprint of
    the document, 64 hexadecimal digits.  The files are untouched when
    the store already carried that fingerprint; otherwise the
    latest-state file and the snapshot of the time of writing hold the
    document. *)
Theorem X3_main_publishes_fingerprint
    (OUT_DIR : path) (rows : list row) (built written : datetime) (w : world)
    (menu : json) :
  Forall plain_row rows ->
  writable OUT_DIR written w ->
  build_menu built rows = Ok menu ->
  exists w' h,
    main OUT_DIR rows built written w = (Ok tt, w')
    /\ getitem menu "hash" = Ok (JStr h)
    /\ is_hex_digest h
    /\ load_existing_hash OUT_DIR w' = (Ok (JStr h), w')
    /\ OUT_DIR ∈ dirs w'
    /\ SNAP_DIR OUT_DIR ∈ dirs w'
    /\ (prior_fingerprint OUT_DIR w = JStr h -> files w' = files w)
    /\ (prior_fingerprint OUT_DIR w <> JStr h ->
        files w' !! LATEST_PATH OUT_DIR = Some (Document menu)
        /\ files w' !! snapshot_path OUT_DIR written = Some (Document menu)).
Proof.
  intros _ _ Hb.
  destruct (build_menu_returns built rows menu Hb) as (d & h & -> & Hd & Hhex).
  assert (Hh : getitem (JDict d) "hash" = Ok (JStr h))
    by (simpl; rewrite Hd; reflexivity).
  destruct (made_dirs_spec OUT_DIR w) as (H1 & H2 & _).
  unfold main, io_bind, io_lift. rewrite Hb.
  rewrite (write_outputs_run OUT_DIR written (JDict d) (JStr h) w Hh).
  destruct (py_eq (prior_fingerprint OUT_DIR w) (JStr h)) eqn:E.
  - apply py_eq_str in E.
    eexists. exists h.
    split; [reflexivity|]. rewrite load_existing_hash_prior.
    unfold prior_fingerprint at 1. cbn [dirs files].
    fold (prior_fingerprint OUT_DIR w). rewrite E.
    split; [exact Hh|]. split; [exact Hhex|].
    split; [reflexivity|]. split; [exact H1|]. split; [exact H2|].
    split; [reflexivity|]. intros Hne. contradiction.
  - assert (Hne : prior_fingerprint OUT_DIR w <> JStr h).
    { intros Hp. apply py_eq_str in Hp. congruence. }
    eexists. exists h.
    split; [reflexivity|]. rewrite load_existing_hash_prior.
    unfold prior_fingerprint at 1. cbn [dirs files].
    rewrite lookup_insert_ne by apply snapshot_not_latest.
    rewrite !lookup_insert_eq.
    split; [exact Hh|]. split; [exact Hhex|].
    split; [unfold get; rewrite Hd; reflexivity|].
    split; [exact H1|]. split; [exact H2|].
    split; [intros Hp; contradiction|]. intros _. split; reflexivity.
Qed.

Lemma X3_main_publishes_fingerprint_witness :
  Forall plain_row tea_rows
  /\ writable sample_out later_time crowded_world
  /\ build_menu sample_time tea_rows = Ok tea_menu
  /\ exists w' h,
       main sample_out tea_rows sample_time later_time crowded_world = (Ok tt, w')
       /\ getitem tea_menu "hash" = Ok (JStr h)
       /\ is_hex_digest h
       /\ load_existing_hash sample_out w' = (Ok (JStr h), w')
       /\ sample_out ∈ dirs w'
       /\ SNAP_DIR sample_out ∈ dirs w'
       /\ (prior_fingerprint sample_out crowded_world = JStr h ->
           files w' = files crowded_world)
       /\ (prior_fingerprint sample_out crowded_world <> JStr h ->
           files w' !! LATEST_PATH sample_out = Some (Document tea_menu)
           /\ files w' !! snapshot_path sample_out later_time
              = Some (Document tea_menu)).
Proof.
  assert (H1 : Forall plain_row tea_rows)
    by (apply plain_rows_check; vm_compute; reflexivity).
  assert (H2 : writable sample_out later_time crowded_world)
    by apply crowded_world_writable.
  assert (H3 : build_menu sample_time tea_rows = Ok tea_menu)
    by (vm_compute; reflexivity).
  split; [exact H1|]. split; [exact H2|]. split; [exact H3|].
  apply (X3_main_publishes_fingerprint sample_out tea_rows sample_time later_time
           crowded_world tea_menu H1 H2 H3).
Defined.

(** X4.  A latest-state file that holds JSON without a fingerprint (its
    top level is not an object, or the object has no [hash] member) counts
    as no prior state: [load_existing_hash] returns [None] without
    failing, and a document whose [hash] is a text is then written. *)
Theorem X4_latest_without_fingerprint
    (OUT_DIR : path) (now : datetime) (menu j : json) (h : string) (w : world) :
  files w !! LATEST_PATH OUT_DIR = Some (Document j) ->
  (forall d, j = JDict d -> dict_lookup d "hash" = None) ->
  getitem menu "hash" = Ok (JStr h) ->
  load_existing_hash OUT_DIR w = (Ok JNull, w)
  /\ exists w',
       write_outputs OUT_DIR now menu w = (Ok true, w')
       /\ files w' !! LATEST_PATH OUT_DIR = Some (Document menu).
Proof.
  intros Hf Hj Hh.
  assert (Hp : prior_fingerprint OUT_DIR w = JNull).
  { unfold prior_fingerprint. rewrite Hf. destruct j; try reflexivity.
    unfold get. rewrite (Hj d eq_refl). reflexivity. }
  rewrite load_existing_hash_prior, Hp. split; [reflexivity|].
  rewrite (write_outputs_run OUT_DIR now menu (JStr h) w Hh), Hp.
  eexists. split; [reflexivity|]. cbn [files].
  rewrite lookup_insert_ne by apply snapshot_not_latest.
  apply lookup_insert_eq.
Qed.

Lemma X4_latest_without_fingerprint_witness :
  files {| dirs := ∅;
           files := <[LATEST_PATH sample_out := Document (JList [JStr "0b"])]> ∅;
           stdout := [] |} !! LATEST_PATH sample_out
  = Some (Document (JList [JStr "0b"]))
  /\ (forall d, JList [JStr "0b"] = JDict d -> dict_lookup d "hash" = None)
  /\ getitem new_document "hash" = Ok (JStr "0b")
  /\ load_existing_hash sample_out
       {| dirs := ∅;
          files := <[LATEST_PATH sample_out := Document (JList [JStr "0b"])]> ∅;
          stdout := [] |}
     = (Ok JNull,
        {| dirs := ∅;
           files := <[LATEST_PATH sample_out := Document (JList [JStr "0b"])]> ∅;
           stdout := [] |}).
Proof.
  assert (H1 : files {| dirs := ∅;
                        files := <[LATEST_PATH sample_out
                                   := Document (JList [JStr "0b"])]> ∅;
                        stdout := [] |} !! LATEST_PATH sample_out
               = Some (Document (JList [JStr "0b"])))
    by (vm_compute; reflexivity).
  assert (H2 : forall d, JList [JStr "0b"] = JDict d -> dict_lookup d "hash" = None)
    by (intros d Hd; discriminate Hd).
  assert (H3 : getitem new_document "hash" = Ok (JStr "0b")) by reflexivity.
  split; [exact H1|]. split; [exact H2|]. split; [exact H3|].
  apply (X4_latest_without_fingerprint sample_out sample_time new_document
           (JList [JStr "0b"]) "0b" _ H1 H2 H3).
Defined.

(** X5.  A document without a [hash] member makes [write_outputs] raise
    [KeyError] after the directories are made and the prior fingerprint
    read, and before anything is written or printed. *)
Theorem X5_write_outputs_missing_hash
    (OUT_DIR : path) (now : datetime) (d : list (string * json)) (w : world) :
  dict_lookup d "hash" = None ->
  exists w',
    write_outputs OUT_DIR now (JDict d) w = (Raise (KeyError "hash"), w')
    /\ files w' = files w
    /\ stdout w' = stdout w
    /\ OUT_DIR ∈ dirs w'
    /\ SNAP_DIR OUT_DIR ∈ dirs w'.
Proof.
  intros Hd.
  assert (Hh : getitem (JDict d) "hash" = Raise (KeyError "hash"))
    by (simpl; rewrite Hd; reflexivity).
  rewrite (write_outputs_raise OUT_DIR now (JDict d) _ w Hh).
  destruct (made_dirs_spec OUT_DIR w) as (H1 & H2 & _).
  eexists. split; [reflexivity|]. cbn [dirs files stdout]. auto.
Qed.

Lemma X5_write_outputs_missing_hash_witness :
  dict_lookup [("generated_at", JStr "now")] "hash" = None
  /\ exists w',
       write_outputs sample_out sample_time (JDict [("generated_at", JStr "now")])
         crowded_world
       = (Raise (KeyError "hash"), w')
       /\ files w' = files crowded_world
       /\ stdout w' = stdout crowded_world
       /\ sample_out ∈ dirs w'
       /\ SNAP_DIR sample_out ∈ dirs w'.
Proof.
  split; [reflexivity|].
  apply (X5_write_outputs_missing_hash sample_out sample_time
           [("generated_at", JStr "now")] crowded_world).
  reflexivity.
Defined.

(** ** [build_menu] and the aggregator *)

(** X6.  On rows of plain cells [build_menu] raises only the schema
    error, and exactly when there is a first row that lacks a required
    column: no text of a cell, and no number within the range [str]
    prints, makes it fail. *)
Theorem X6_build_menu_failure (now : datetime) (rows : list row) (e : exn) :
  Forall plain_row rows ->
  build_menu now rows = Raise e
  <-> exists r rows',
        rows = r :: rows' /\ missing_headers r <> []
        /\ e = RuntimeError (schema_message (missing_headers r)).
Proof.
  intros _. split.
  - intros Hb.
    destruct (validate_headers_cases rows) as [Hv|(r & rows' & Er & Hne & Hv)].
    + rewrite (build_menu_ok now rows Hv) in Hb. discriminate.
    + rewrite (build_menu_raise now rows _ Hv) in Hb.
      exists r, rows'. repeat split; auto. congruence.
  - intros (r & rows' & -> & Hne & ->).
    apply build_menu_raise. simpl.
    destruct (missing_headers r); [contradiction|reflexivity].
Qed.

Lemma X6_build_menu_failure_witness :
  Forall plain_row [bare_row]
  /\ (build_menu sample_time [bare_row]
      = Raise (RuntimeError (schema_message ["price"; "sort"]))
      <-> exists r rows',
            [bare_row] = r :: rows' /\ missing_headers r <> []
            /\ RuntimeError (schema_message ["price"; "sort"])
               = RuntimeError (schema_message (missing_headers r))).
Proof.
  assert (H : Forall plain_row [bare_row])
    by (apply plain_rows_check; vm_compute; reflexivity).
  split; [exact H|].
  apply (X6_build_menu_failure sample_time [bare_row]
           (RuntimeError (schema_message ["price"; "sort"])) H).
Defined.

Lemma py_min_In {A : Type} (lt : A -> A -> bool) (d x : A) (l : list A) :
  In (py_min lt d (x :: l)) (x :: l).
Proof.
  simpl. revert x. induction l as [|y l IH]; intros x; simpl; [auto|].
  destruct (lt y x).
  - destruct (IH y) as [E|H]; auto.
  - destruct (IH x) as [E|H]; auto.
Qed.

(** X7.  The categories partition the accepted items, whatever the sort
    values are (a NaN included): every category text of an item names
    exactly one category, no category is empty, a category holds exactly
    the items that carry its name, and its sort is the sort of one of
    them. *)
Theorem X7_categories_partition (items : list item) :
  Permutation (map cat_name (build_categories items))
              (first_seen (map category items))
  /\ List.NoDup (map cat_name (build_categories items))
  /\ (forall k, In k (map cat_name (build_categories items))
                <-> In k (map category items))
  /\ (forall c, In c (build_categories items) ->
        cat_items c <> []
        /\ Permutation (cat_items c) (items_of (cat_name c) items)
        /\ (forall x, In x (cat_items c) -> category x = cat_name c)
        /\ In (cat_sort c) (map sort (cat_items c))).
Proof.
  assert (Hp : Permutation (map cat_name (build_categories items))
                           (first_seen (map category items))).
  { unfold build_categories. rewrite (list_sort_perm category_lt).
    rewrite group_items_groups. unfold groups_of.
    rewrite !List.map_map. simpl. rewrite List.map_id. reflexivity. }
  split; [exact Hp|].
  split.
  { eapply Permutation_NoDup; [symmetry; exact Hp|apply first_seen_NoDup]. }
  split.
  { intros k. rewrite <- (first_seen_In k (map category items)). split; intros H.
    - eapply Permutation_in; [exact Hp|exact H].
    - eapply Permutation_in; [symmetry; exact Hp|exact H]. }
  intros c Hc.
  assert (Hc' : In c (map make_category (group_items items))).
  { eapply Permutation_in; [apply list_sort_perm|exact Hc]. }
  apply in_map_iff in Hc'. destruct Hc' as (g & <- & Hg).
  destruct (group_nonempty items g Hg) as [Hne Eg].
  cbn [make_category cat_name cat_sort cat_items].
  set (l := list_sort item_lt (snd g)).
  assert (Hl : Permutation l (snd g)) by apply list_sort_perm.
  assert (Hl0 : l <> []).
  { intros E. rewrite E in Hl. apply Permutation_nil in Hl. auto. }
  split; [exact Hl0|].
  split; [rewrite <- Eg; exact Hl|].
  split.
  - intros x Hx. apply (Permutation_in _ Hl) in Hx. rewrite Eg in Hx.
    unfold items_of in Hx. apply List.filter_In in Hx.
    apply String.eqb_eq. tauto.
  - destruct l as [|x l']; [congruence|]. apply py_min_In.
Qed.

(** ** Trimming and letter case *)

Lemma rskip_cons (p : ascii -> bool) (c : ascii) (s : string) :
  rskip p (String c s)
  = match rskip p s with
    | EmptyString => if p c then EmptyString else String c EmptyString
    | r => String c r
    end.
Proof. reflexivity. Qed.

Lemma rskip_idem (p : ascii -> bool) (s : string) : rskip p (rskip p s) = rskip p s.
Proof.
  induction s as [|c s IH]; [reflexivity|].
  rewrite rskip_cons. destruct (rskip p s) as [|d r] eqn:E.
  - destruct (p c) eqn:Hc; [reflexivity|].
    rewrite rskip_cons. simpl. rewrite Hc. reflexivity.
  - rewrite rskip_cons, IH. reflexivity.
Qed.

Lemma rskip_keeps_head (p : ascii -> bool) (c : ascii) (s : string) :
  p c = false -> exists r, rskip p (String c s) = String c r.
Proof.
  intros Hc. rewrite rskip_cons. destruct (rskip p s); [rewrite Hc|]; eauto.
Qed.

Lemma lskip_fixed (p : ascii -> bool) (s : string) :
  match s with EmptyString => True | String c _ => p c = false end ->
  lskip p s = s.
Proof. destruct s as [|c s]; simpl; [reflexivity|]. intros ->. reflexivity. Qed.

Lemma strip_idem (s : string) : strip (strip s) = strip s.
Proof.
  unfold strip.
  assert (H : lskip is_space (rskip is_space (lskip is_space s))
              = rskip is_space (lskip is_space s)).
  { pose proof (lskip_head is_space s) as Hh.
    destruct (lskip is_space s) as [|c t]; [reflexivity|].
    destruct (rskip_keeps_head is_space c t Hh) as [r Er].
    rewrite Er. apply lskip_fixed. exact Hh. }
  rewrite H. apply rskip_idem.
Qed.

Lemma rskip_all (p : ascii -> bool) (b : string) :
  string_forallb p b = true -> rskip p b = EmptyString.
Proof.
  induction b as [|c b IH]; simpl; [reflexivity|].
  intros H. apply andb_true_iff in H. destruct H as [Hc Hb].
  rewrite (IH Hb), Hc. reflexivity.
Qed.

Lemma lskip_all (p : ascii -> bool) (b : string) :
  string_forallb p b = true -> lskip p b = EmptyString.
Proof.
  induction b as [|c b IH]; simpl; [reflexivity|].
  intros H. apply andb_true_iff in H. destruct H as [Hc Hb].
  rewrite Hc. exact (IH Hb).
Qed.

Lemma rskip_app_all (p : ascii -> bool) (t b : string) :
  string_forallb p b = true -> rskip p (String.append t b) = rskip p t.
Proof.
  intros Hb. induction t as [|c t IH].
  - change (String.append EmptyString b) with b. rewrite rskip_all by exact Hb.
    reflexivity.
  - change (String.append (String c t) b) with (String c (String.append t b)).
    cbn [rskip]. rewrite IH. reflexivity.
Qed.

Lemma lskip_app_all (p : ascii -> bool) (a t : string) :
  string_forallb p a = true -> lskip p (String.append a t) = lskip p t.
Proof.
  induction a as [|c a IH]; [reflexivity|].
  intros H. simpl in H. apply andb_true_iff in H. destruct H as [Hc Ha].
  change (String.append (String c a) t) with (String c (String.append a t)).
  cbn [lskip]. rewrite Hc. exact (IH Ha).
Qed.

Lemma strip_padded (a s b : string) :
  string_forallb is_space a = true -> string_forallb is_space b = true ->
  strip (String.append a (String.append s b)) = strip s.
Proof.
  intros Ha Hb. unfold strip. rewrite lskip_app_all by exact Ha.
  induction s as [|c s IH].
  - change (String.append EmptyString b) with b.
    rewrite lskip_all by exact Hb. reflexivity.
  - change (String.append (String c s) b) with (String c (String.append s b)).
    cbn [lskip]. destruct (is_space c); [exact IH|].
    change (String c (String.append s b)) with (String.append (String c s) b).
    apply rskip_app_all. exact Hb.
Qed.

Lemma is_space_lower_char (c : ascii) : is_space (lower_char c) = is_space c.
Proof. destruct c as [[] [] [] [] [] [] [] []]; reflexivity. Qed.

Lemma lower_char_idem (c : ascii) : lower_char (lower_char c) = lower_char c.
Proof. destruct c as [[] [] [] [] [] [] [] []]; reflexivity. Qed.

Lemma lower_idem (s : string) : lower (lower s) = lower s.
Proof.
  induction s as [|c s IH]; simpl; [reflexivity|].
  rewrite lower_char_idem, IH. reflexivity.
Qed.

Lemma lower_lskip (s : string) :
  lower (lskip is_space s) = lskip is_space (lower s).
Proof.
  induction s as [|c s IH]; simpl; [reflexivity|].
  rewrite is_space_lower_char. destruct (is_space c); [exact IH|reflexivity].
Qed.

Lemma lower_rskip (s : string) :
  lower (rskip is_space s) = rskip is_space (lower s).
Proof.
  induction s as [|c s IH]; [reflexivity|].
  cbn [lower]. rewrite !rskip_cons, <- IH, is_space_lower_char.
  destruct (rskip is_space s) as [|d r]; cbn [lower].
  - destruct (is_space c); reflexivity.
  - reflexivity.
Qed.

Lemma lower_strip (s : string) : lower (strip s) = strip (lower s).
Proof. unfold strip. rewrite lower_rskip, lower_lskip. reflexivity. Qed.

(** X8.  Every text of an accepted item is trimmed: its category and its
    name are not empty, and trimming any of its five texts again changes
    nothing, so no text of the document begins or ends with white space. *)
Theorem X8_accepted_item_trimmed (r : row) (it : item) :
  row_item r = Ok (Some it) ->
  category it <> "" /\ name it <> ""
  /\ strip (category it) = category it
  /\ strip (name it) = name it
  /\ strip (description it) = description it
  /\ strip (price_display it) = price_display it
  /\ strip (image_url it) = image_url it.
Proof.
  intros Hr.
  destruct (row_item_cases r) as [[_ H]|[(Hc & Hn & _) (s & _ & H)]];
    cbv zeta in *; rewrite H in Hr; inversion Hr; subst; clear Hr.
  cbn [category name description price_display image_url].
  repeat split; auto using strip_idem.
Qed.

Lemma X8_accepted_item_trimmed_witness :
  row_item (menu_row "Drinks" "Tea" (PStr " $5 ") (PNum (Int 1))) = Ok (Some tea_item)
  /\ category tea_item <> "" /\ name tea_item <> ""
  /\ strip (category tea_item) = category tea_item
  /\ strip (name tea_item) = name tea_item
  /\ strip (description tea_item) = description tea_item
  /\ strip (price_display tea_item) = price_display tea_item
  /\ strip (image_url tea_item) = image_url tea_item.
Proof.
  assert (H : row_item (menu_row "Drinks" "Tea" (PStr " $5 ") (PNum (Int 1)))
              = Ok (Some tea_item)) by (vm_compute; reflexivity).
  split; [exact H|].
  apply (X8_accepted_item_trimmed _ tea_item H).
Defined.

(** X9.  [norm_bool] reads a text without regard to the white space around
    it and to letter case: padding a text with white space, or replacing
    it by a text that differs in letter case only, does not change the
    result. *)
Theorem X9_norm_bool_insensitive (s t a b : string) (default : bool) :
  string_forallb is_space a = true ->
  string_forallb is_space b = true ->
  lower s = lower t ->
  norm_bool (PStr (String.append a (String.append s b))) default
  = norm_bool (PStr s) default
  /\ norm_bool (PStr s) default = norm_bool (PStr t) default.
Proof.
  intros Ha Hb Hst. unfold norm_bool. cbn [str].
  rewrite (strip_padded a s b Ha Hb).
  split; [reflexivity|].
  rewrite !lower_strip, Hst. reflexivity.
Qed.

Lemma X9_norm_bool_insensitive_witness :
  string_forallb is_space "  " = true
  /\ string_forallb is_space " " = true
  /\ lower "YeS" = lower "yes"
  /\ norm_bool (PStr (String.append "  " (String.append "YeS" " "))) false
     = norm_bool (PStr "YeS") false
  /\ norm_bool (PStr "YeS") false = norm_bool (PStr "yes") false.
Proof.
  split; [reflexivity|]. split; [reflexivity|]. split; [reflexivity|].
  apply (X9_norm_bool_insensitive "YeS" "yes" "  " " " false); reflexivity.
Defined.

(** ** The canonical form does not depend on the order of the keys *)

Lemma chr_code (c : ascii) : chr (code c) = c.
Proof. unfold chr, code. rewrite N2Z.id. apply ascii_N_embedding. Qed.

Lemma code_inj (a b : ascii) : code a = code b -> a = b.
Proof. intros H. rewrite <- (chr_code a), <- (chr_code b), H. reflexivity. Qed.

Lemma str_lt_total (s : string) : forall t,
  str_lt s t = false -> str_lt t s = false -> s = t.
Proof.
  induction s as [|a s IH]; intros [|b t]; simpl; try congruence.
  destruct (Z.ltb_spec (code a) (code b)), (Z.ltb_spec (code b) (code a));
    try congruence; try lia.
  intros H1 H2. assert (E : a = b) by (apply code_inj; lia).
  subst. f_equal. apply IH; assumption.
Qed.

Lemma sorted_perm_unique {A : Type} (lt : A -> A -> bool) (l1 : list A) :
  forall l2,
    Permutation l1 l2 ->
    StronglySorted (le_of lt) l1 -> StronglySorted (le_of lt) l2 ->
    (forall a b, In a l1 -> In b l1 -> le_of lt a b -> le_of lt b a -> a = b) ->
    l1 = l2.
Proof.
  induction l1 as [|a l1 IH]; intros l2 Hp Hs1 Hs2 Hanti.
  - apply Permutation_nil in Hp. congruence.
  - destruct l2 as [|b l2].
    { symmetry in Hp. apply Permutation_nil in Hp. discriminate. }
    inversion Hs1 as [|? ? Hs1' Ha]; subst.
    inversion Hs2 as [|? ? Hs2' Hb]; subst.
    rewrite List.Forall_forall in Ha, Hb.
    assert (Hin_b : In b (a :: l1)).
    { eapply Permutation_in; [symmetry; exact Hp|left; reflexivity]. }
    assert (Hin_a : In a (b :: l2)).
    { eapply Permutation_in; [exact Hp|left; reflexivity]. }
    assert (E : a = b).
    { destruct Hin_b as [E|Hb1]; [congruence|].
      destruct Hin_a as [E|Ha2]; [congruence|].
      apply Hanti; [left; reflexivity|right; exact Hb1|apply Ha; exact Hb1|].
      apply Hb. exact Ha2. }
    subst b. f_equal. apply Permutation_cons_inv in Hp.
    apply IH; auto. intros x y Hx Hy. apply Hanti; right; assumption.
Qed.

Lemma NoDup_fst_inj {A B : Type} (l : list (A * B)) (a b : A * B) :
  List.NoDup (map fst l) -> In a l -> In b l -> fst a = fst b -> a = b.
Proof.
  induction l as [|x l IH]; simpl; intros Hn Ha Hb E; [contradiction|].
  inversion Hn as [|? ? Hx Hn']; subst.
  destruct Ha as [->|Ha], Hb as [->|Hb]; auto.
  - exfalso. apply Hx. rewrite E. apply in_map. exact Hb.
  - exfalso. apply Hx. rewrite <- E. apply in_map. exact Ha.
Qed.

Lemma dumps_dict (d : list (string * json)) :
  dumps (JDict d)
  = String.append "{"
      (String.append
         (join "," (map dumps_member
                      (list_sort member_lt
                         (map (fun kv => (fst kv, dumps (snd kv))) d))))
         "}").
Proof.
  assert (E : map (fun '(k, v) => (k, dumps v)) d
              = map (fun kv => (fst kv, dumps (snd kv))) d)
    by (apply map_ext; intros [k v]; reflexivity).
  rewrite <- E. reflexivity.
Qed.

(** X10.  With [sort_keys=True] the canonical form, and with it the
    fingerprint, does not depend on the order in which the members of an
    object were inserted: two dictionaries with the same members (the
    keys distinct, as those of a [dict] are) serialize to the same text
    and have the same [stable_hash]. *)
Theorem X10_stable_hash_key_order (d d' : list (string * json)) :
  List.NoDup (map fst d) -> Permutation d d' ->
  dumps (JDict d) = dumps (JDict d')
  /\ stable_hash (JDict d) = stable_hash (JDict d').
Proof.
  intros Hn Hp.
  assert (E : dumps (JDict d) = dumps (JDict d')).
  { rewrite !dumps_dict. do 4 f_equal.
    set (r := map (fun kv => (fst kv, dumps (snd kv))) d).
    set (r' := map (fun kv => (fst kv, dumps (snd kv))) d').
    assert (Hr : Permutation r r') by (apply Permutation_map; exact Hp).
    assert (Hnr : List.NoDup (map fst r)).
    { unfold r. rewrite List.map_map. simpl. exact Hn. }
    destruct (member_sort_stable r) as (P1 & S1 & _).
    destruct (member_sort_stable r') as (P2 & S2 & _).
    apply sorted_perm_unique with (lt := member_lt); auto.
    - rewrite <- P1, <- P2. exact Hr.
    - intros a b Ha Hb Hab Hba.
      apply (NoDup_fst_inj r); auto.
      + eapply Permutation_in; [symmetry; exact P1|exact Ha].
      + eapply Permutation_in; [symmetry; exact P1|exact Hb].
      + unfold le_of, member_lt in *. apply str_lt_total; assumption. }
  split; [exact E|]. unfold stable_hash. rewrite E. reflexivity.
Qed.

Lemma X10_stable_hash_key_order_witness :
  List.NoDup (map fst [("generated_at", JStr "now"); ("categories", JList [])])
  /\ Permutation [("generated_at", JStr "now"); ("categories", JList [])]
                 [("categories", JList []); ("generated_at", JStr "now")]
  /\ dumps (JDict [("generated_at", JStr "now"); ("categories", JList [])])
     = dumps (JDict [("categories", JList []); ("generated_at", JStr "now")])
  /\ stable_hash (JDict [("generated_at", JStr "now"); ("categories", JList [])])
     = stable_hash (JDict [("categories", JList []); ("generated_at", JStr "now")]).
Proof.
  assert (H1 : List.NoDup
                 (map fst [("generated_at", JStr "now"); ("categories", JList [])])).
  { simpl. constructor; [simpl; intros [H|[]]; discriminate|].
    constructor; [simpl; tauto|constructor]. }
  assert (H2 : Permutation [("generated_at", JStr "now"); ("categories", JList [])]
                           [("categories", JList []); ("generated_at", JStr "now")])
    by apply perm_swap.
  split; [exact H1|]. split; [exact H2|].
  apply (X10_stable_hash_key_order _ _ H1 H2).
Defined.

(** ** Snapshot names *)

Lemma str_lt_cons_same (c : ascii) (s t : string) :
  str_lt (String c s) (String c t) = str_lt s t.
Proof. simpl. rewrite Z.ltb_irrefl. reflexivity. Qed.

Lemma str_lt_app_same (a s t : string) :
  str_lt (String.append a s) (String.append a t) = str_lt s t.
Proof.
  induction a as [|c a IH]; [reflexivity|].
  change (str_lt (String c (String.append a s)) (String c (String.append a t))
          = str_lt s t).
  rewrite str_lt_cons_same. exact IH.
Qed.

Lemma str_lt_app_lt (a : string) : forall b s t,
  String.length a = String.length b -> str_lt a b = true ->
  str_lt (String.append a s) (String.append b t) = true.
Proof.
  induction a as [|c a IH]; intros [|d b] s t Hl Hlt; simpl in Hl, Hlt;
    try discriminate.
  change (str_lt (String c (String.append a s)) (String d (String.append b t))
          = true).
  simpl. destruct (code c <? code d); [reflexivity|].
  destruct (code d <? code c); [discriminate|].
  apply IH; [congruence|exact Hlt].
Qed.

(** Zero-padded numbers of one width are ordered as texts the way they
    are as numbers, over a range that [pads_ascend] has checked. *)
Lemma pads_ascend_ordered (w count : nat) : forall n,
  pads_ascend w count n = true ->
  forall a b, n <= a <= n + Z.of_nat count -> b <= n + Z.of_nat count ->
    String.length (zero_pad w a) = w
    /\ (a < b -> str_lt (zero_pad w a) (zero_pad w b) = true).
Proof.
  induction count as [|c IH]; intros n Hc a b Ha Hb; cbn [pads_ascend] in Hc.
  - apply andb_true_iff in Hc. destruct Hc as [Hl _].
    assert (a = n) by lia. subst a.
    split; [apply Nat.eqb_eq; exact Hl|lia].
  - apply andb_true_iff in Hc. destruct Hc as [Hl Hc].
    apply andb_true_iff in Hc. destruct Hc as [Hlt Hc].
    destruct (Z.eq_dec a n) as [->|Hne].
    + split; [apply Nat.eqb_eq; exact Hl|]. intros Hab.
      destruct (Z.eq_dec b (n + 1)) as [->|Hb1]; [exact Hlt|].
      apply str_lt_trans with (t := zero_pad w (n + 1)); [exact Hlt|].
      apply (IH (n + 1) Hc (n + 1) b); lia.
    + apply (IH (n + 1) Hc a b); lia.
Qed.

Lemma pad2_ordered (a b : Z) :
  0 <= a <= 99 -> b <= 99 ->
  String.length (zero_pad 2 a) = 2%nat
  /\ (a < b -> str_lt (zero_pad 2 a) (zero_pad 2 b) = true).
Proof.
  intros Ha Hb.
  apply (pads_ascend_ordered 2 (Z.to_nat 99) 0); [vm_compute; reflexivity|lia|lia].
Qed.

Lemma pad4_ordered (a b : Z) :
  0 <= a <= 9999 -> b <= 9999 ->
  String.length (zero_pad 4 a) = 4%nat
  /\ (a < b -> str_lt (zero_pad 4 a) (zero_pad 4 b) = true).
Proof.
  intros Ha Hb.
  apply (pads_ascend_ordered 4 (Z.to_nat 9999) 0); [vm_compute; reflexivity|lia|lia].
Qed.

Lemma field_step (a b r1 r2 : string) :
  String.length a = String.length b ->
  str_lt a b = true \/ a = b /\ str_lt r1 r2 = true ->
  str_lt (String.append a r1) (String.append b r2) = true.
Proof.
  intros Hl [H|[-> H]].
  - apply str_lt_app_lt; assumption.
  - rewrite str_lt_app_same. exact H.
Qed.

Lemma strftime_length (t : datetime) :
  calendar_time t -> String.length (strftime t) = 18%nat.
Proof.
  intros (Hy & Hmo & Hd & Hh & Hmi & Hs). unfold strftime.
  destruct (pad4_ordered (year t) 0) as [L1 _]; [lia|lia|].
  destruct (pad2_ordered (month t) 0) as [L2 _]; [lia|lia|].
  destruct (pad2_ordered (day t) 0) as [L3 _]; [lia|lia|].
  destruct (pad2_ordered (hour t) 0) as [L4 _]; [lia|lia|].
  destruct (pad2_ordered (minute t) 0) as [L5 _]; [lia|lia|].
  destruct (pad2_ordered (second t) 0) as [L6 _]; [lia|lia|].
  repeat (rewrite string_length_append || cbn [String.length]).
  rewrite L1, L2, L3, L4, L5, L6. reflexivity.
Qed.

Lemma strftime_ordered (t1 t2 : datetime) :
  calendar_time t1 -> calendar_time t2 -> earlier_second t1 t2 ->
  str_lt (strftime t1) (strftime t2) = true.
Proof.
  intros (Hy1 & Hmo1 & Hd1 & Hh1 & Hmi1 & Hs1) (Hy2 & Hmo2 & Hd2 & Hh2 & Hmi2 & Hs2) He.
  unfold strftime.
  destruct (pad4_ordered (year t1) (year t2)) as [A1 O1]; [lia|lia|].
  destruct (pad4_ordered (year t2) 0) as [A2 _]; [lia|lia|].
  destruct (pad2_ordered (month t1) (month t2)) as [B1 P1]; [lia|lia|].
  destruct (pad2_ordered (month t2) 0) as [B2 _]; [lia|lia|].
  destruct (pad2_ordered (day t1) (day t2)) as [C1 Q1]; [lia|lia|].
  destruct (pad2_ordered (day t2) 0) as [C2 _]; [lia|lia|].
  destruct (pad2_ordered (hour t1) (hour t2)) as [D1 R1]; [lia|lia|].
  destruct (pad2_ordered (hour t2) 0) as [D2 _]; [lia|lia|].
  destruct (pad2_ordered (minute t1) (minute t2)) as [E1 S1]; [lia|lia|].
  destruct (pad2_ordered (minute t2) 0) as [E2 _]; [lia|lia|].
  destruct (pad2_ordered (second t1) (second t2)) as [F1 T1]; [lia|lia|].
  destruct (pad2_ordered (second t2) 0) as [F2 _]; [lia|lia|].
  apply field_step; [congruence|].
  destruct He as [He|[Ey He]]; [left; auto|right; split; [congruence|]].
  rewrite str_lt_cons_same. apply field_step; [congruence|].
  destruct He as [He|[Em He]]; [left; auto|right; split; [congruence|]].
  rewrite str_lt_cons_same. apply field_step; [congruence|].
  destruct He as [He|[Ed He]]; [left; auto|right; split; [congruence|]].
  rewrite str_lt_cons_same. apply field_step; [congruence|].
  destruct He as [He|[Eh He]]; [left; auto|right; split; [congruence|]].
  apply field_step; [congruence|].
  destruct He as [He|[Emi He]]; [left; auto|right; split; [congruence|]].
  apply field_step; [congruence|]. left. auto.
Qed.

(** X11.  Snapshot names sort the way time runs: for two instants of the
    calendar (years 1000 to 9999) the earlier of which is at least a
    second of the clock before the other, the file name of the earlier
    snapshot is below the other's in the order of texts, and the two
    snapshot paths differ, so neither run overwrites the other's
    snapshot. *)
Theorem X11_snapshot_names_chronological (OUT_DIR : path) (t1 t2 : datetime) :
  calendar_time t1 -> calendar_time t2 -> earlier_second t1 t2 ->
  str_lt (String.append (strftime t1) ".json")
         (String.append (strftime t2) ".json") = true
  /\ snapshot_path OUT_DIR t1 <> snapshot_path OUT_DIR t2.
Proof.
  intros H1 H2 He.
  assert (Hlt : str_lt (String.append (strftime t1) ".json")
                       (String.append (strftime t2) ".json") = true).
  { apply str_lt_app_lt.
    - rewrite !strftime_length by assumption. reflexivity.
    - apply strftime_ordered; assumption. }
  split; [exact Hlt|].
  unfold snapshot_path. intros Heq. apply app_inj_tail in Heq.
  destruct Heq as [_ Heq]. rewrite Heq, str_lt_irrefl in Hlt. discriminate.
Qed.

Lemma X11_snapshot_names_chronological_witness :
  calendar_time sample_time /\ calendar_time later_time
  /\ earlier_second sample_time later_time
  /\ str_lt (String.append (strftime sample_time) ".json")
            (String.append (strftime later_time) ".json") = true
  /\ snapshot_path sample_out sample_time <> snapshot_path sample_out later_time.
Proof.
  assert (H1 : calendar_time sample_time) by (unfold calendar_time; simpl; lia).
  assert (H2 : calendar_time later_time) by (unfold calendar_time; simpl; lia).
  assert (H3 : earlier_second sample_time later_time)
    by (unfold earlier_second; simpl; lia).
  split; [exact H1|]. split; [exact H2|]. split; [exact H3|].
  apply (X11_snapshot_names_chronological sample_out _ _ H1 H2 H3).
Defined.

(** ** How the steps compose *)




(** X13.  A category is built from its own rows only: when two sheets
    give a category the same items in the same order, the category comes
    out the same in both documents (its name, its sort, its items and
    their order), whatever the other categories hold. *)
Theorem X13_category_locality (items items' : list item) (c c' : category_entry) :
  In c (build_categories items) -> In c' (build_categories items') ->
  cat_name c = cat_name c' ->
  items_of (cat_name c) items = items_of (cat_name c) items' ->
  c = c' /\ emit_category c = emit_category c'.
Proof.
  intros Hc Hc' En Ei.
  assert (E : c = c').
  { rewrite (build_categories_member items c Hc).
    rewrite (build_categories_member items' c' Hc').
    rewrite <- En, Ei. reflexivity. }
  split; [exact E|]. rewrite E. reflexivity.
Qed.

Lemma X13_category_locality_witness :
  In (make_category ("Drinks", [tea_item])) (build_categories [tea_item])
  /\ In (make_category ("Drinks", [tea_item]))
        (build_categories [cake_item; tea_item])
  /\ make_category ("Drinks", [tea_item]) = make_category ("Drinks", [tea_item])
  /\ emit_category (make_category ("Drinks", [tea_item]))
     = emit_category (make_category ("Drinks", [tea_item])).
Proof.
  assert (H1 : In (make_category ("Drinks", [tea_item]))
                  (build_categories [tea_item]))
    by (vm_compute; left; reflexivity).
  assert (H2 : In (make_category ("Drinks", [tea_item]))
                  (build_categories [cake_item; tea_item]))
    by (vm_compute; right; left; reflexivity).
  split; [exact H1|]. split; [exact H2|].
  apply (X13_category_locality [tea_item] [cake_item; tea_item] _ _ H1 H2);
    reflexivity.
Defined.



(** X15.  The order of the rows matters for ties only: when no sort value
    of a category is a NaN, the names are ASCII and no two of its items
    have equal keys (sort, lower-cased name), the category comes out the
    same from its items in any order. *)
Theorem X15_order_independent_without_ties (k : string) (l l' : list item) :
  Permutation l l' ->
  Forall ordered_item l ->
  Forall (fun x => is_ascii (name x) = true) l ->
  (forall a b, In a l -> In b l -> tie item_before a b = true -> a = b) ->
  list_sort item_lt l = list_sort item_lt l'
  /\ make_category (k, l) = make_category (k, l').
Proof.
  intros Hp Ho _ Hties.
  assert (Ho' : Forall ordered_item l').
  { rewrite List.Forall_forall in *. intros x Hx. apply Ho.
    eapply Permutation_in; [symmetry; exact Hp|exact Hx]. }
  destruct (item_sort_stable l Ho) as (P1 & S1 & _).
  destruct (item_sort_stable l' Ho') as (P2 & S2 & _).
  assert (E : list_sort item_lt l = list_sort item_lt l').
  { apply sorted_perm_unique with (lt := item_lt); auto.
    - rewrite <- P1, <- P2. exact Hp.
    - intros a b Ha Hb Hab Hba. apply Hties.
      + eapply Permutation_in; [symmetry; exact P1|exact Ha].
      + eapply Permutation_in; [symmetry; exact P1|exact Hb].
      + unfold tie, le_of in *.
        change (item_before a b) with (item_lt a b).
        change (item_before b a) with (item_lt b a).
        rewrite Hab, Hba. reflexivity. }
  split; [exact E|]. unfold make_category. cbn [snd fst]. rewrite E. reflexivity.
Qed.

Lemma X15_order_independent_without_ties_witness :
  Permutation [tea_item; cake_item] [cake_item; tea_item]
  /\ Forall ordered_item [tea_item; cake_item]
  /\ Forall (fun x => is_ascii (name x) = true) [tea_item; cake_item]
  /\ (forall a b, In a [tea_item; cake_item] -> In b [tea_item; cake_item] ->
        tie item_before a b = true -> a = b)
  /\ list_sort item_lt [tea_item; cake_item] = list_sort item_lt [cake_item; tea_item]
  /\ make_category ("Menu", [tea_item; cake_item])
     = make_category ("Menu", [cake_item; tea_item]).
Proof.
  assert (H1 : Permutation [tea_item; cake_item] [cake_item; tea_item])
    by apply perm_swap.
  assert (H2 : Forall ordered_item [tea_item; cake_item])
    by (repeat constructor).
  assert (Ha : Forall (fun x => is_ascii (name x) = true) [tea_item; cake_item])
    by (repeat constructor).
  assert (H3 : forall a b, In a [tea_item; cake_item] -> In b [tea_item; cake_item] ->
                 tie item_before a b = true -> a = b).
  { intros a b [<-|[<-|[]]] [<-|[<-|[]]]; vm_compute; congruence. }
  split; [exact H1|]. split; [exact H2|]. split; [exact Ha|]. split; [exact H3|].
  apply (X15_order_independent_without_ties "Menu" _ _ H1 H2 Ha H3).
Defined.


(** ** The canonical form is one line of printable bytes *)

Lemma printable_append (s t : string) :
  string_forallb printable s = true -> string_forallb printable t = true ->
  string_forallb printable (String.append s t) = true.
Proof. intros Hs Ht. rewrite string_forallb_append, Hs, Ht. reflexivity. Qed.

Lemma printable_cons (c : ascii) (s : string) :
  printable c = true -> string_forallb printable s = true ->
  string_forallb printable (String c s) = true.
Proof. intros Hc Hs. simpl. rewrite Hc, Hs. reflexivity. Qed.

Lemma printable_chr (z : Z) : 32 <= z < 256 -> printable (chr z) = true.
Proof. intros H. unfold printable. rewrite code_chr by lia. apply Z.leb_le. lia. Qed.

Lemma printable_digits_onto (fuel : nat) : forall n acc,
  string_forallb printable acc = true ->
  string_forallb printable (digits_onto fuel n acc) = true.
Proof.
  induction fuel as [|fuel IH]; intros n acc Hacc; simpl; [exact Hacc|].
  assert (Hd : string_forallb printable (String (digit_char (n mod 10)) acc) = true).
  { apply printable_cons; [|exact Hacc]. unfold digit_char.
    pose proof (Z.mod_pos_bound n 10). apply printable_chr. lia. }
  destruct (n <? 10); [exact Hd|]. apply IH. exact Hd.
Qed.

Lemma printable_nat_digits (n : Z) : string_forallb printable (nat_digits n) = true.
Proof. unfold nat_digits. apply printable_digits_onto. reflexivity. Qed.

Lemma printable_str_int (z : Z) : string_forallb printable (str_int z) = true.
Proof.
  unfold str_int. destruct (z <? 0); [|apply printable_nat_digits].
  apply printable_cons; [reflexivity|apply printable_nat_digits].
Qed.

Lemma printable_repeat_char (c : ascii) (n : nat) :
  printable c = true -> string_forallb printable (repeat_char c n) = true.
Proof.
  intros Hc. induction n as [|n IH]; simpl; [reflexivity|].
  rewrite Hc, IH. reflexivity.
Qed.

Lemma printable_zero_pad (w : nat) (n : Z) :
  string_forallb printable (zero_pad w n) = true.
Proof.
  unfold zero_pad. apply printable_append.
  - apply printable_repeat_char. reflexivity.
  - apply printable_nat_digits.
Qed.

Lemma printable_substring (s : string) : forall n m,
  string_forallb printable s = true ->
  string_forallb printable (String.substring n m s) = true.
Proof.
  induction s as [|c s IH]; intros n m Hs.
  - destruct n, m; reflexivity.
  - simpl in Hs. apply andb_true_iff in Hs. destruct Hs as [Hc Hs].
    destruct n as [|n]; simpl.
    + destruct m as [|m]; [reflexivity|]. simpl. rewrite Hc. apply IH. exact Hs.
    + apply IH. exact Hs.
Qed.

Lemma printable_format_repr (ds : string) (decpt : Z) :
  string_forallb printable ds = true ->
  string_forallb printable (format_repr ds decpt) = true.
Proof.
  intros Hds. unfold format_repr.
  destruct ((-4 <? decpt) && (decpt <=? 16)).
  - destruct (decpt <=? 0).
    + apply printable_append; [reflexivity|].
      apply printable_append; [apply printable_repeat_char; reflexivity|exact Hds].
    + destruct (Z.of_nat (String.length ds) <=? decpt).
      * apply printable_append; [exact Hds|].
        apply printable_append; [apply printable_repeat_char; reflexivity|reflexivity].
      * apply printable_append; [apply printable_substring; exact Hds|].
        apply printable_cons; [reflexivity|apply printable_substring; exact Hds].
  - apply printable_append.
    + destruct ds as [|d [|d' rest]]; [exact Hds|exact Hds|].
      cbn [string_forallb] in Hds. apply andb_true_iff in Hds.
      destruct Hds as [Hd Hr].
      apply printable_cons; [exact Hd|].
      apply printable_cons; [reflexivity|exact Hr].
    + apply printable_cons; [reflexivity|].
      apply printable_cons; [destruct (decpt - 1 <? 0); reflexivity|].
      apply printable_zero_pad.
Qed.

Lemma printable_float_repr (f : spec_float) :
  string_forallb printable (float_repr f) = true.
Proof.
  assert (H : forall x m e, string_forallb printable (repr_finite x m e) = true).
  { intros x m e. unfold repr_finite.
    destruct (shortest_digits _ _ _ _ _ _) as [c t].
    destruct (drop_zeros _ _ _) as [c' t'].
    apply printable_format_repr. apply printable_nat_digits. }
  destruct f as [s|s| |s m e]; simpl.
  - destruct s; reflexivity.
  - destruct s; reflexivity.
  - reflexivity.
  - destruct s; [apply printable_cons; [reflexivity|]|]; apply H.
Qed.

Lemma printable_dumps_num (n : num) : string_forallb printable (dumps_num n) = true.
Proof.
  destruct n as [z|f]; simpl; [apply printable_str_int|].
  destruct f as [s|s| |s m e]; try (destruct s; reflexivity); try reflexivity.
  apply (printable_float_repr (S754_finite s m e)).
Qed.

Lemma printable_hex_fixed (n : nat) (z : Z) :
  string_forallb printable (hex_fixed n z) = true.
Proof.
  revert z. induction n as [|n IH]; intros z; simpl; [reflexivity|].
  apply printable_append; [apply IH|].
  simpl. rewrite andb_true_r. unfold hex_digit.
  pose proof (Z.mod_pos_bound z 16).
  destruct (z mod 16 <? 10); apply printable_chr; lia.
Qed.

Lemma printable_escape_char (c : ascii) :
  string_forallb printable (escape_char c) = true.
Proof.
  unfold escape_char.
  repeat match goal with
         | |- context [if ?b then _ else _] =>
             lazymatch b with
             | (_ =? _) => destruct b; [reflexivity|]
             end
         end.
  destruct (Z.ltb_spec (code c) 32).
  - apply printable_append; [reflexivity|].
    apply printable_cons; [reflexivity|apply printable_hex_fixed].
  - simpl. rewrite andb_true_r. apply Z.leb_le. exact H.
Qed.

Lemma printable_encode_basestring (s : string) :
  string_forallb printable (encode_basestring s) = true.
Proof.
  unfold encode_basestring.
  apply printable_append; [reflexivity|].
  apply printable_append; [|reflexivity].
  induction s as [|c s IH]; simpl; [reflexivity|].
  apply printable_append; [apply printable_escape_char|exact IH].
Qed.

Lemma printable_join (sep : string) (l : list string) :
  string_forallb printable sep = true ->
  Forall (fun s => string_forallb printable s = true) l ->
  string_forallb printable (join sep l) = true.
Proof.
  intros Hsep Hl. induction Hl as [|x l Hx Hl IH]; [reflexivity|].
  destruct l as [|y l]; [exact Hx|].
  change (join sep (x :: y :: l))
    with (String.append x (String.append sep (join sep (y :: l)))).
  apply printable_append; [exact Hx|].
  apply printable_append; [exact Hsep|exact IH].
Qed.

(** X17.  The canonical form that is hashed is one line of printable
    bytes: whatever the document holds (texts with control characters or
    line breaks, any number), [json.dumps] with these options writes no
    byte below 0x20. *)
Theorem X17_canonical_form_printable (j : json) :
  string_forallb printable (dumps j) = true.
Proof.
  induction j as [|b|n|s|l IH|d IH] using json_induction.
  - reflexivity.
  - destruct b; reflexivity.
  - apply printable_dumps_num.
  - apply printable_encode_basestring.
  - cbn [dumps]. apply printable_append; [reflexivity|].
    apply printable_append; [|reflexivity].
    apply printable_join; [reflexivity|].
    apply List.Forall_forall. intros s Hs.
    apply in_map_iff in Hs. destruct Hs as (x & <- & Hx).
    rewrite List.Forall_forall in IH. apply IH. exact Hx.
  - rewrite dumps_dict. apply printable_append; [reflexivity|].
    apply printable_append; [|reflexivity].
    apply printable_join; [reflexivity|].
    apply List.Forall_forall. intros s Hs.
    apply in_map_iff in Hs. destruct Hs as (m & <- & Hm).
    apply (Permutation_in _ (list_sort_perm member_lt _)) in Hm.
    apply in_map_iff in Hm. destruct Hm as (kv & <- & Hkv).
    unfold dumps_member. cbn [fst snd].
    apply printable_append; [apply printable_encode_basestring|].
    apply printable_cons; [reflexivity|].
    rewrite List.Forall_forall in IH. apply IH. exact Hkv.
Qed.

(** ** Header validation looks at the set of columns only *)

(** X18.  [validate_headers] depends on the set of column names of the
    first row and on nothing else: two sheets whose first rows have the
    same column names, in any order and with any values, further columns
    included, and whatever rows follow, are both accepted or both
    rejected with the same message. *)
Theorem X18_validation_by_column_set (r r' : row) (rows rows' : list row) :
  (forall h, In h (keys r) <-> In h (keys r')) ->
  missing_headers r = missing_headers r'
  /\ validate_headers (r :: rows) = validate_headers (r' :: rows').
Proof.
  intros Hk.
  assert (E : missing_headers r = missing_headers r').
  { unfold missing_headers. apply List.filter_ext. intros h. f_equal.
    destruct (mem h (keys r)) eqn:E1, (mem h (keys r')) eqn:E2; try reflexivity.
    - apply mem_In, Hk, mem_In in E1. congruence.
    - apply mem_In, Hk, mem_In in E2. congruence. }
  split; [exact E|]. simpl. rewrite E. reflexivity.
Qed.

Lemma X18_validation_by_column_set_witness :
  (forall h, In h (keys [("item", PStr "Tea"); ("category", PStr "Drinks")])
             <-> In h (keys [("category", PNone); ("item", PNum (Int 3))]))
  /\ missing_headers [("item", PStr "Tea"); ("category", PStr "Drinks")]
     = missing_headers [("category", PNone); ("item", PNum (Int 3))]
  /\ validate_headers [[("item", PStr "Tea"); ("category", PStr "Drinks")]]
     = validate_headers [[("category", PNone); ("item", PNum (Int 3))]; []].
Proof.
  assert (H : forall h, In h (keys [("item", PStr "Tea"); ("category", PStr "Drinks")])
                        <-> In h (keys [("category", PNone); ("item", PNum (Int 3))]))
    by (intros h; simpl; tauto).
  split; [exact H|].
  apply (X18_validation_by_column_set _ _ [] [[]] H).
Defined.
